(** * Circulation engine of the library management system (LMS.jsx)

    A shallow embedding of the borrow / return handlers, the fine
    calculator, the defaulter classifier and the report aggregators of
    [src/LMS.jsx], together with the properties the specification states
    about them.

    Conventions of the embedding.
    - A JavaScript [Date] is its time value: milliseconds since the epoch,
      an integer ([Z]).  Only valid dates are modelled (the dates of this
      program come from [new Date()] and from Firestore timestamps).
    - A nullable date is [option Z]; [None] is JavaScript's [null].
    - A JavaScript number holding money is a rational ([Q]).  The money
      values the program computes are halves of integers, which binary
      floating point represents exactly as long as the time differences
      stay below 2^53 milliseconds.
    - A Firestore collection is a finite map from document ids to documents.
    - A React snapshot of a collection (the arrays [books], [users],
      [transactions]) is a list of documents, each carrying its id. *)

From Stdlib Require Import ZArith QArith Qround Lia.
From stdpp Require Import gmap strings list fin_maps sorting pretty.

Open Scope Z_scope.

(** ** Dates *)

Module JSDate.

Definition msPerDay : Z := 1000 * 60 * 60 * 24.

(** [Day(t)] and [TimeWithinDay(t)] of ECMAScript. *)
Definition Day (t : Z) : Z := t / msPerDay.
Definition TimeWithinDay (t : Z) : Z := t mod msPerDay.

(** Year, month (1..12) and day of month of a day number counted from the
    epoch, in the proleptic Gregorian calendar. *)
Definition civil_from_days (z : Z) : Z * Z * Z :=
  let z := z + 719468 in
  let era := z / 146097 in
  let doe := z - era * 146097 in
  let yoe := (doe - doe / 1460 + doe / 36524 - doe / 146096) / 365 in
  let y := yoe + era * 400 in
  let doy := doe - (365 * yoe + yoe / 4 - yoe / 100) in
  let mp := (5 * doy + 2) / 153 in
  let d := doy - (153 * mp + 2) / 5 + 1 in
  let m := if mp <? 10 then mp + 3 else mp - 9 in
  (if m <=? 2 then y + 1 else y, m, d).

(** Day number of the given day [d] of month [m] (1..12) of year [y]. *)
Definition days_from_civil (y m d : Z) : Z :=
  let y := if m <=? 2 then y - 1 else y in
  let era := y / 400 in
  let yoe := y - era * 400 in
  let doy := (153 * (if m >? 2 then m - 3 else m + 9) + 2) / 5 + d - 1 in
  let doe := yoe * 365 + yoe / 4 - yoe / 100 + doy in
  era * 146097 + doe - 719468.

Definition YearFromTime (t : Z) : Z := (civil_from_days (Day t)).1.1.
(** Months are numbered from 0, as in ECMAScript. *)
Definition MonthFromTime (t : Z) : Z := (civil_from_days (Day t)).1.2 - 1.

(** [MakeDay(year, month, date)] for a month in 0..11: the day number of
    the first of the month, plus [date - 1]. *)
Definition MakeDay (year month date : Z) : Z :=
  days_from_civil year (month + 1) 1 + date - 1.
Definition MakeDate (day time : Z) : Z := day * msPerDay + time.

(** [DateFromTime(t)]: the day within the month, counted from 1. *)
Definition DateFromTime (t : Z) : Z :=
  Day t - MakeDay (YearFromTime t) (MonthFromTime t) 1 + 1.

Section LocalTime.
(** Offset of the local time zone from UTC, in milliseconds.  The zone
    is taken to have one fixed offset: a change of daylight saving, across
    which [setDate] keeps the wall-clock time rather than the number of
    elapsed hours, is outside the model, and what is proved of due dates
    holds for zones and periods without such a change. *)
Variable tza : Z.

Definition LocalTime (t : Z) : Z := t + tza.
Definition UTC (t : Z) : Z := t - tza.

Definition getFullYear (d : Z) : Z := YearFromTime (LocalTime d).
Definition getMonth (d : Z) : Z := MonthFromTime (LocalTime d).
Definition getDate (d : Z) : Z := DateFromTime (LocalTime d).

(** [d.setDate(dt)]: the date whose day of month is [dt] in the month
    of [d], day overflow carried into the following months. *)
Definition setDate (d : Z) (dt : Z) : Z :=
  let t := LocalTime d in
  UTC (MakeDate (MakeDay (YearFromTime t) (MonthFromTime t) dt)
                (TimeWithinDay t)).
End LocalTime.

(** [date.getTime()] is the time value itself. *)
Definition getTime (d : Z) : Z := d.

(** [new Date(Date.UTC(y, m, d, hh, mm))], with [m] in 1..12; used to
    write dates down in examples. *)
Definition utc (y m d hh mm : Z) : Z :=
  MakeDate (days_from_civil y m d) ((hh * 60 + mm) * 60 * 1000).

End JSDate.

Import JSDate.

(** ** Fine calculator *)

Definition FINE_RATE_PER_DAY : Q := 1 # 2.
Definition BORROW_DAYS : Z := 7.

(** [x.toFixed(2)] for [x >= 0]: the integer [n] for which [n / 100] is
    closest to [x], the larger one on a tie; the digits of the result are
    those of [n]. *)
Definition toFixed2 (x : Q) : Z := Qfloor (x * 100 + (1 # 2)).

(** [parseFloat] of the string printed by [toFixed(2)]. *)
Definition parseFloat_fixed2 (n : Z) : Q := n # 100.

(** [Math.ceil] of a quotient of two numbers. *)
Definition Math_ceil (x : Q) : Z := Qceiling x.

Definition calculateFine (dueDate returnDate : option Z) : Q :=
  match dueDate, returnDate with
  | None, _ | _, None => 0
  | Some due, Some ret =>
      if ret <=? due then 0
      else
        let timeDiff := getTime ret - getTime due in
        let daysLate := Math_ceil (inject_Z timeDiff / inject_Z msPerDay) in
        parseFloat_fixed2 (toFixed2 (inject_Z daysLate * FINE_RATE_PER_DAY))
  end.

(** [x > 0] on numbers. *)
Definition js_gt0 (x : Q) : bool := negb (Qle_bool x 0).

(** The fine as the specification words it. *)
Definition round2 (x : Q) : Q := Qfloor (x * 100 + (1 # 2)) # 100.

Definition ceil_days (elapsed : Z) : Z := - ((- elapsed) / msPerDay).

Definition computeFine (dueDate returnDate : Z) : Q :=
  if returnDate <=? dueDate then 0
  else round2 (inject_Z (ceil_days (returnDate - dueDate)) * (1 # 2)).

(** ** Data model *)

Inductive Role := Student | Staff.

Record Book := mkBook {
  title : string;
  author : string;
  publisher : string;
  category : string;
  totalCopies : Z;
  availableCopies : Z
}.

Record User := mkUser {
  name : string;
  role : Role;
  isDefaulter : bool
}.

Record Txn := mkTxn {
  bookId : string;
  userId : string;
  borrowDate : option Z;
  dueDate : option Z;
  returnDate : option Z;
  fineAmount : Q
}.

(** A document of a snapshot: [{ id: doc.id, ...doc.data() }]. *)
Definition Doc (A : Type) : Type := string * A.
Definition doc_id {A} (d : Doc A) : string := d.1.
Definition doc_data {A} (d : Doc A) : A := d.2.

(** The Firestore database: the three collections. *)
Record Store := mkStore {
  sbooks : gmap string Book;
  susers : gmap string User;
  stransactions : gmap string Txn
}.

(** [array.find(x => x.id === id)] *)
Definition find_by_id {A} (id : string) (l : list (Doc A)) : option (Doc A) :=
  find (fun d => bool_decide (doc_id d = id)) l.

(** ** Firestore primitives *)

(** [t.update(ref, fields)] changes fields of an existing document and fails
    on a missing one. *)
Definition t_update {A} (id : string) (f : A -> A) (m : gmap string A)
  : option (gmap string A) :=
  x ← m !! id; Some (<[id := f x]> m).

(** [t.set(ref, data)] writes the document, replacing one with the same id. *)
Definition t_set {A} (id : string) (x : A) (m : gmap string A) : gmap string A :=
  <[id := x]> m.

(** [runTransaction(db, body)]: the body runs on the current state of the
    database and its writes are committed together; when the body throws,
    nothing is written.  Firestore serialises transactions, so a transaction
    is one atomic step of the store.  Failures of the network are left out. *)
Definition runTransaction (body : Store -> option Store) (db : Store)
  : option Store := body db.

Definition set_availableCopies (n : Z) (b : Book) : Book :=
  mkBook (title b) (author b) (publisher b) (category b) (totalCopies b) n.

Definition close_txn (ret : option Z) (fine : Q) (t : Txn) : Txn :=
  mkTxn (bookId t) (userId t) (borrowDate t) (dueDate t) ret fine.

(** ** Borrow *)

Inductive BorrowOutcome :=
| BorrowNoSelection   (* silent return: no user or no book selected *)
| BorrowUnavailable   (* "Book not available for borrow." *)
| Borrowed            (* "Book successfully borrowed." *)
| BorrowFailed.       (* "Transaction failed: " *)

(** Inputs that the handler draws from its environment. *)
Record BorrowEnv := mkBorrowEnv {
  b_now1 : Z;        (* first [new Date()], bound to [borrowDate] *)
  b_now2 : Z;        (* second [new Date()], bound to [dueDate] *)
  b_server : Z;      (* the value the server gives [serverTimestamp()] *)
  b_autoId : string  (* the id of [doc(transactionCollection)] *)
}.

Section Handlers.
Variable tza : Z.

Definition borrow_dueDate (env : BorrowEnv) : Z :=
  setDate tza (b_now2 env) (getDate tza (b_now1 env) + BORROW_DAYS).

Definition borrow_body (selectedUserId selectedBookId : string)
    (env : BorrowEnv) (db : Store) : option Store :=
  bookDoc ← sbooks db !! selectedBookId;
  let newAvailableCopies := availableCopies bookDoc - 1 in
  books' ← t_update selectedBookId (set_availableCopies newAvailableCopies)
                    (sbooks db);
  let txns' :=
    t_set (b_autoId env)
          (mkTxn selectedBookId selectedUserId (Some (b_server env))
                 (Some (borrow_dueDate env)) None 0)
          (stransactions db) in
  Some (mkStore books' (susers db) txns').

Definition handleBorrow (books : list (Doc Book))
    (selectedUserId selectedBookId : string) (env : BorrowEnv) (db : Store)
  : BorrowOutcome * Store :=
  if bool_decide (selectedUserId = "") || bool_decide (selectedBookId = "")
  then (BorrowNoSelection, db)
  else
    match find_by_id selectedBookId books with
    | None => (BorrowUnavailable, db)
    | Some selectedBook =>
        if availableCopies (doc_data selectedBook) <? 1
        then (BorrowUnavailable, db)
        else
          match runTransaction
                  (borrow_body selectedUserId selectedBookId env) db with
          | Some db' => (Borrowed, db')
          | None => (BorrowFailed, db)
          end
    end.

(** ** Return *)

Inductive ReturnOutcome :=
| ReturnAlreadyReturned   (* silent return: "// Already returned" *)
| Returned (fine : Q)     (* "Book successfully returned. Fine: ..." *)
| ReturnFailed.           (* "Transaction failed: " *)

Record ReturnEnv := mkReturnEnv {
  r_now : Z;      (* [new Date()], bound to [returnDate] *)
  r_server : Z    (* the value the server gives [serverTimestamp()] *)
}.

Definition return_body (txn : Doc Txn) (fine : Q) (env : ReturnEnv)
    (db : Store) : option Store :=
  bookDoc ← sbooks db !! bookId (doc_data txn);
  let newAvailableCopies := availableCopies bookDoc + 1 in
  books' ← t_update (bookId (doc_data txn))
                    (set_availableCopies newAvailableCopies) (sbooks db);
  txns' ← t_update (doc_id txn) (close_txn (Some (r_server env)) fine)
                   (stransactions db);
  Some (mkStore books' (susers db) txns').

Definition handleReturn (txn : Doc Txn) (env : ReturnEnv) (db : Store)
  : ReturnOutcome * Store :=
  match returnDate (doc_data txn) with
  | Some _ => (ReturnAlreadyReturned, db)
  | None =>
      let fine := calculateFine (dueDate (doc_data txn)) (Some (r_now env)) in
      match runTransaction (return_body txn fine env) db with
      | Some db' => (Returned fine, db')
      | None => (ReturnFailed, db)
      end
  end.

End Handlers.

(** ** JavaScript objects used as counters, and sorting *)

(** The own properties of an object used as a map from keys to values, in
    the order of their first assignment.  [obj_get] and [obj_set] read and
    write own properties.  What a plain object [{}] adds to them is modelled
    below: the properties it inherits from [Object.prototype]
    ([Object_prototype], [counter_incr]) and the order in which
    [Object.entries] lists the keys ([Object_entries]).  Report VI keys its
    object by month keys such as [2024-01], which are neither inherited
    names nor array indices: own properties in insertion order are all there
    is to it. *)
Definition JSObject (V : Type) : Type := list (string * V).

Fixpoint obj_get {V} (k : string) (o : JSObject V) : option V :=
  match o with
  | [] => None
  | (k', v) :: o' => if bool_decide (k' = k) then Some v else obj_get k o'
  end.

(** [o[k] = f(o[k])] *)
Fixpoint obj_set {V} (k : string) (f : option V -> V) (o : JSObject V)
  : JSObject V :=
  match o with
  | [] => [(k, f None)]
  | (k', v) :: o' =>
      if bool_decide (k' = k) then (k', f (Some v)) :: o'
      else (k', v) :: obj_set k f o'
  end.

(** The names a plain object inherits from [Object.prototype]. *)
Definition Object_prototype : list string :=
  ["constructor"; "hasOwnProperty"; "isPrototypeOf"; "propertyIsEnumerable";
   "toLocaleString"; "toString"; "valueOf"; "__proto__";
   "__defineGetter__"; "__defineSetter__"; "__lookupGetter__";
   "__lookupSetter__"].

Definition inherited (k : string) : bool :=
  bool_decide (k ∈ Object_prototype).

(** What a counter of report V holds under a key: a number, or the string
    that [+ 1] makes of a value that is not a number. *)
Inductive JSCount :=
| Num (n : nat)
| Str (s : string).

Section PlainObject.
(** [String(f)] for a function [f] that [Object.prototype] holds under a
    name.  The text depends on the engine; ECMAScript gives it the syntax of
    a native function, which starts with [function], so that neither it nor
    what is appended to it reads as a number. *)
Variable source_text : string -> string.

(** [(o[k] || 0) + 1], given the own property of [o] under [k]:
    an own number is incremented; an own string gets ["1"] appended (the
    empty string is falsy and gives 1); for a key the object does not own,
    the read finds the function [Object.prototype] holds under an inherited
    name, which is truthy and joins its text with ["1"], and [undefined]
    under any other name, which gives 1. *)
Definition plus_one (k : string) (v : option JSCount) : JSCount :=
  match v with
  | Some (Num n) => Num (S n)
  | Some (Str s) => if bool_decide (s = "") then Num 1 else Str (s +:+ "1")
  | None => if inherited k then Str (source_text k +:+ "1") else Num 1
  end.

(** [o[k] = (o[k] || 0) + 1] on a plain object.  An assignment to
    [__proto__] calls the setter of [Object.prototype], which ignores a
    value that is not an object: nothing is stored. *)
Definition counter_incr (k : string) (o : JSObject JSCount)
  : JSObject JSCount :=
  if bool_decide (k = "__proto__") then o else obj_set k (plus_one k) o.

End PlainObject.

(** The same on numbers alone: what [counter_incr] does for a key that is
    not an inherited name. *)
Definition obj_incr (k : string) (o : JSObject nat) : JSObject nat :=
  obj_set k (fun v => S (default 0%nat v)) o.

(** The object after counting the keys of a list one by one. *)
Definition count_keys (o : JSObject nat) (ks : list string) : JSObject nat :=
  foldl (fun o k' => obj_incr k' o) o ks.

(** A counter whose values are all numbers. *)
Definition numeric (o : JSObject nat) : JSObject JSCount :=
  prod_map id Num <$> o.

(** [array.sort(cmp)]: a stable sort; [cmp a b > 0] puts [a] after [b]. *)
Fixpoint sort_insert {A} (cmp : A -> A -> Z) (x : A) (l : list A) : list A :=
  match l with
  | [] => [x]
  | y :: l' =>
      if cmp x y <=? 0 then x :: y :: l' else y :: sort_insert cmp x l'
  end.

Definition js_sort {A} (cmp : A -> A -> Z) (l : list A) : list A :=
  foldr (sort_insert cmp) [] l.

(** The array index a key spells: the canonical decimal form of an integer
    below 2^32 - 1. *)
Definition digit_of (c : Ascii.ascii) : option N :=
  let n := Ascii.N_of_ascii c in
  if (48 <=? n)%N && (n <=? 57)%N then Some (n - 48)%N else None.

Fixpoint digits_value (acc : N) (s : string) : option N :=
  match s with
  | EmptyString => Some acc
  | String c s' => d ← digit_of c; digits_value (10 * acc + d)%N s'
  end.

Definition array_index (k : string) : option N :=
  match k with
  | EmptyString => None
  | String c s' =>
      if bool_decide (digit_of c = Some 0%N)
         && negb (bool_decide (s' = EmptyString))
      then None
      else n ← digits_value 0 k;
           if (n <? 4294967295)%N then Some n else None
  end.

Definition is_index {V} (e : string * V) : bool :=
  bool_decide (is_Some (array_index e.1)).

Definition index_of {V} (e : string * V) : Z :=
  Z.of_N (default 0%N (array_index e.1)).

(** [Object.entries(o)]: the keys that spell an array index first, in
    ascending order of the index, then the other keys in the order of their
    first assignment. *)
Definition Object_entries {V} (o : JSObject V) : list (string * V) :=
  js_sort (fun a b => index_of a - index_of b) (List.filter is_index o)
  ++ List.filter (fun e => negb (is_index e)) o.

(** [b - a] on two counts.  A string that does not read as a number
    converts to NaN, and [sort] takes a comparator that returns NaN to
    return 0.  (With such a string among three or more rows the comparator
    is not consistent and ECMAScript leaves the order to the engine; the
    insertion order of [js_sort] is then one of the possible orders, and
    nothing is proved of it.) *)
Definition count_sub (b a : JSCount) : Z :=
  match b, a with
  | Num n, Num m => Z.of_nat n - Z.of_nat m
  | _, _ => 0
  end.

(** The key has a hyphen. *)
Fixpoint has_hyphen (s : string) : bool :=
  match s with
  | EmptyString => false
  | String c s' => (Ascii.N_of_ascii c =? 45)%N || has_hyphen s'
  end.

(** [a.localeCompare(b)], on the digits and hyphens of a month key. *)
Definition localeCompare (a b : string) : Z :=
  match String.compare a b with
  | Lt => -1
  | Eq => 0
  | Gt => 1
  end.

(** ** Reports *)

Record BookCounts := mkBookCounts {
  c_author : JSObject JSCount;
  c_publisher : JSObject JSCount;
  c_category : JSObject JSCount
}.

Record Usage := mkUsage {
  u_Student : nat;
  u_Staff : nat;
  u_Total : nat
}.

Section Reports.
Variable tza : Z.
(** The text of the built-in functions, as in [plus_one]. *)
Variable source_text : string -> string.

(** [str.padStart(2, '0')] *)
Definition padStart2 (s : string) : string :=
  match String.length s with
  | O => "00"
  | S O => "0" +:+ s
  | _ => s
  end.

Definition getMonthYear (date : Z) : string :=
  pretty (getFullYear tza date) +:+ "-"
    +:+ padStart2 (pretty (getMonth tza date + 1)).

Definition MIN_LATE_COUNT_FOR_DEFAULTER : nat := 2.

(** Report V: usage by author, publisher and category. *)
Definition bookReports_count (books : list (Doc Book)) (counts : BookCounts)
    (txn : Doc Txn) : BookCounts :=
  match find_by_id (bookId (doc_data txn)) books with
  | Some book =>
      mkBookCounts
        (counter_incr source_text (author (doc_data book)) (c_author counts))
        (counter_incr source_text (publisher (doc_data book))
                      (c_publisher counts))
        (counter_incr source_text (category (doc_data book))
                      (c_category counts))
  | None => counts
  end.

Definition formatReport (data : JSObject JSCount)
  : list (string * JSCount) :=
  js_sort (fun a b => count_sub b.2 a.2) (Object_entries data).

Definition bookReports (books : list (Doc Book))
    (transactions : list (Doc Txn)) : BookCounts :=
  let counts :=
    foldl (bookReports_count books) (mkBookCounts [] [] []) transactions in
  mkBookCounts (formatReport (c_author counts))
               (formatReport (c_publisher counts))
               (formatReport (c_category counts)).

(** Report VI: monthly usage of students and staff.  Reading the month of
    a null [borrowDate] throws; [None] is that exception. *)
Definition usage_incr (r : Role) (u : option Usage) : Usage :=
  let u := default (mkUsage 0 0 0) u in
  match r with
  | Student => mkUsage (S (u_Student u)) (u_Staff u) (S (u_Total u))
  | Staff => mkUsage (u_Student u) (S (u_Staff u)) (S (u_Total u))
  end.

Definition monthlyUsage_count (users : list (Doc User))
    (usage : option (JSObject Usage)) (txn : Doc Txn)
  : option (JSObject Usage) :=
  usage ← usage;
  match find_by_id (userId (doc_data txn)) users with
  | None => Some usage
  | Some user =>
      date ← borrowDate (doc_data txn);
      let monthYear := getMonthYear date in
      Some (obj_set monthYear (usage_incr (role (doc_data user))) usage)
  end.

Definition monthlyUsageReport (users : list (Doc User))
    (transactions : list (Doc Txn)) : option (list (string * Usage)) :=
  usage ← foldl (monthlyUsage_count users) (Some []) transactions;
  Some (js_sort (fun a b => localeCompare b.1 a.1) usage).

(** Report VII: regular defaulters.  The counter is read and written under
    user ids only, and never listed: it is a finite map.  (Document ids are
    taken not to be names that plain objects inherit; those the program
    creates are the random ids of Firestore.) *)
Definition userLateCounts_count (counts : gmap string nat) (txn : Doc Txn)
  : gmap string nat :=
  if js_gt0 (fineAmount (doc_data txn))
  then <[userId (doc_data txn) :=
           S (default 0%nat (counts !! userId (doc_data txn)))]> counts
  else counts.

Definition userLateCounts (transactions : list (Doc Txn)) : gmap string nat :=
  foldl userLateCounts_count ∅ transactions.

(** [userLateCounts[id] >= MIN_LATE_COUNT_FOR_DEFAULTER]; a missing count
    is [undefined], which compares false. *)
Definition is_regular_defaulter (counts : gmap string nat) (id : string)
  : bool :=
  match counts !! id with
  | Some n => (MIN_LATE_COUNT_FOR_DEFAULTER <=? n)%nat
  | None => false
  end.

(** A row of the defaulters report: [{ ...u, lateCount }]. *)
Definition defaultersReport (users : list (Doc User))
    (counts : gmap string nat) : list (Doc User * nat) :=
  let regularDefaulters :=
    List.filter (fun user => is_regular_defaulter counts (doc_id user))
                users in
  js_sort (fun a b => Z.of_nat b.2 - Z.of_nat a.2)
    (map (fun u => (u, default 0%nat (counts !! doc_id u)))
         regularDefaulters).

(** The effect that writes the defaulter flags back to Firestore, once the
    users collection is available. *)
Definition set_isDefaulter (v : bool) (u : User) : User :=
  mkUser (name u) (role u) v.

(** [updateDoc(ref, fields)]; a failed update is caught and logged. *)
Definition updateDoc_caught {A} (id : string) (f : A -> A)
    (m : gmap string A) : gmap string A :=
  default m (t_update id f m).

Definition updateDefaulterStatus (users : list (Doc User))
    (report : list (Doc User * nat)) (store : gmap string User)
  : gmap string User :=
  let defaulterIds : gset string :=
    list_to_set (map (fun r => doc_id r.1) report) in
  foldl (fun store user =>
           let isCurrentlyDefaulter :=
             bool_decide (doc_id user ∈ defaulterIds) in
           if negb (Bool.eqb (isDefaulter (doc_data user))
                             isCurrentlyDefaulter)
           then updateDoc_caught (doc_id user)
                  (set_isDefaulter isCurrentlyDefaulter) store
           else store)
        store users.

Definition defaulter_effect (users : list (Doc User))
    (transactions : list (Doc Txn)) (store : gmap string User)
  : gmap string User :=
  let report := defaultersReport users (userLateCounts transactions) in
  if (0 <? length report)%nat
     || existsb (fun u => isDefaulter (doc_data u)) users
  then updateDefaulterStatus users report store
  else store.

End Reports.

(** ** Snapshots and runs *)

(** The snapshot a listener delivers for a collection: its documents. *)
Definition snapshot {A} (m : gmap string A) : list (Doc A) := map_to_list m.

(** A borrow or a return issued from a view that shows the current state of
    the database. *)
Inductive Op :=
| OpBorrow (selectedUserId selectedBookId : string) (env : BorrowEnv)
| OpReturn (txnId : string) (env : ReturnEnv).

Definition step (tza : Z) (db : Store) (op : Op) : Store :=
  match op with
  | OpBorrow u b env =>
      (handleBorrow tza (snapshot (sbooks db)) u b env db).2
  | OpReturn tid env =>
      match find_by_id tid (snapshot (stransactions db)) with
      | Some txn => (handleReturn txn env db).2
      | None => db
      end
  end.

Definition run (tza : Z) (ops : list Op) (db : Store) : Store :=
  foldl (step tza) db ops.

(** Borrows of one book fired from the same view, their transactions
    committed one after the other. *)
Fixpoint borrow_all (tza : Z) (books : list (Doc Book)) (b : string)
    (calls : list (string * BorrowEnv)) (db : Store)
  : list BorrowOutcome * Store :=
  match calls with
  | [] => ([], db)
  | (u, env) :: calls' =>
      let r := handleBorrow tza books u b env db in
      let rs := borrow_all tza books b calls' r.2 in
      (r.1 :: rs.1, rs.2)
  end.

(** The recomputation of the defaulter flags from a view that shows the
    current users.  ([defaulter_effect] is the effect from any view.) *)
Definition recompute_defaulters (transactions : list (Doc Txn)) (db : Store)
  : Store :=
  mkStore (sbooks db)
          (defaulter_effect (snapshot (susers db)) transactions (susers db))
          (stransactions db).

(** ** Invariants of the data model *)

Definition open_for (b : string) (kt : string * Txn) : Prop :=
  bookId kt.2 = b ∧ returnDate kt.2 = None.

Definition openCount (b : string) (txns : gmap string Txn) : nat :=
  size (filter (open_for b) txns).

(** I1: [0 <= availableCopies <= totalCopies] for every book. *)
Definition I1 (db : Store) : Prop :=
  map_Forall (fun _ b => 0 <= availableCopies b <= totalCopies b) (sbooks db).

(** I2: [totalCopies - availableCopies] is the number of open transactions
    of the book. *)
Definition I2 (db : Store) : Prop :=
  map_Forall (fun id b => totalCopies b - availableCopies b
                          = Z.of_nat (openCount id (stransactions db)))
             (sbooks db).

(** A fined transaction is a closed one (a consequence of I4). *)
Definition fined_closed (transactions : list (Doc Txn)) : Prop :=
  Forall (fun t => (0 < fineAmount (doc_data t))%Q ->
                   returnDate (doc_data t) <> None) transactions.

(** The number of closed transactions of a user that carry a fine. *)
Definition late_closed (uid : string) (t : Doc Txn) : bool :=
  bool_decide (userId (doc_data t) = uid)
  && bool_decide (returnDate (doc_data t) <> None)
  && js_gt0 (fineAmount (doc_data t)).

Definition lateCount (uid : string) (transactions : list (Doc Txn)) : nat :=
  length (List.filter (late_closed uid) transactions).

(** What the handlers maintain: no book has a negative availability, and
    the open transactions of a book are covered by its copies on loan. *)
Definition covered (db : Store) : Prop :=
  map_Forall (fun id b =>
                0 <= availableCopies b /\
                Z.of_nat (openCount id (stransactions db))
                <= totalCopies b - availableCopies b)
             (sbooks db).

(** The same on the transactions of the database. *)
Definition fined_closed_store (db : Store) : Prop :=
  map_Forall (fun _ t => (0 < fineAmount t)%Q -> returnDate t <> None)
             (stransactions db).

(** The ids that Firestore draws for the new transactions of a run are not
    in use. *)
Fixpoint fresh_ids (tza : Z) (ops : list Op) (db : Store) : Prop :=
  match ops with
  | [] => True
  | op :: ops' =>
      match op with
      | OpBorrow _ _ env => stransactions db !! b_autoId env = None
      | OpReturn _ _ => True
      end /\ fresh_ids tza ops' (step tza db op)
  end.

(** The transactions of a user that carry a fine. *)
Definition fined (uid : string) (t : Doc Txn) : bool :=
  bool_decide (userId (doc_data t) = uid) && js_gt0 (fineAmount (doc_data t)).

(** ** What the reports count *)

(** The transaction refers to a book, or to a user, of the view. *)
Definition has_book (books : list (Doc Book)) (txn : Doc Txn) : bool :=
  bool_decide (is_Some (find_by_id (bookId (doc_data txn)) books)).

Definition has_user (users : list (Doc User)) (txn : Doc Txn) : bool :=
  bool_decide (is_Some (find_by_id (userId (doc_data txn)) users)).

(** The author, publisher or category ([dim]) of the book a transaction
    refers to, when the view has the book. *)
Definition dimension_of (dim : Book -> string) (books : list (Doc Book))
    (txn : Doc Txn) : option string :=
  (fun b => dim (doc_data b)) <$> find_by_id (bookId (doc_data txn)) books.


(** The books of the view whose author, publisher and category are not
    names that a plain object inherits. *)
Definition ordinary_keys (books : list (Doc Book)) : Prop :=
  Forall (fun b => inherited (author (doc_data b)) = false /\
                   inherited (publisher (doc_data b)) = false /\
                   inherited (category (doc_data b)) = false) books.

(** [a <= b] on two counts that are numbers. *)
Definition count_le (a b : JSCount) : Prop :=
  match a, b with
  | Num m, Num n => (m <= n)%nat
  | _, _ => False
  end.

Definition descending (a b : string * JSCount) : Prop := count_le b.2 a.2.

(** The sum of the counts of a table, when they are all numbers. *)
Definition count_number (v : JSCount) : option nat :=
  match v with
  | Num n => Some n
  | Str _ => None
  end.

Definition total_count (rows : list (string * JSCount)) : option nat :=
  foldr (fun row acc => n ← count_number row.2; m ← acc; Some (n + m)%nat)
        (Some 0%nat) rows.

(** The rows of a counter of numbers, as [formatReport] orders them. *)
Definition sorted_counts (o : JSObject nat) : list (string * nat) :=
  js_sort (fun a b => Z.of_nat b.2 - Z.of_nat a.2) (Object_entries o).

(** ** Dashboard *)

Module Dashboard.

(** [books.reduce((sum, book) => sum + book.totalCopies, 0)] *)
Definition totalBooks (books : list (Doc Book)) : Z :=
  foldl (fun sum book => sum + totalCopies (doc_data book)) 0 books.

Definition availableBooks (books : list (Doc Book)) : Z :=
  foldl (fun sum book => sum + availableCopies (doc_data book)) 0 books.

Definition borrowedBooks (books : list (Doc Book)) : Z :=
  totalBooks books - availableBooks books.

(** [toDate] of a date of the view, which is a [Date] already or null: the
    date itself. *)
Definition toDate (timestamp : option Z) : option Z := timestamp.

(** [d < new Date()] for a date or null [d]; null counts as the number 0. *)
Definition before (d : option Z) (now : Z) : bool := default 0 d <? now.

(** [!t.returnDate && toDate(t.dueDate) < new Date()] *)
Definition overdue (now : Z) (t : Doc Txn) : bool :=
  match returnDate (doc_data t) with
  | None => before (toDate (dueDate (doc_data t))) now
  | Some _ => false
  end.

Definition overdueTransactions (now : Z) (transactions : list (Doc Txn))
  : list (Doc Txn) :=
  List.filter (overdue now) transactions.

(** [transactions.reduce((saum, t) => sum + (t.fineAmount || 0), 0)]: the
    callback names its accumulator [saum] and reads [sum], which no scope
    binds, so every call of the callback throws a ReferenceError; [None] is
    that exception. *)
Definition totalFines (transactions : list (Doc Txn)) : option Q :=
  foldl (fun acc t => saum ← acc; (None : option Q)) (Some 0%Q) transactions.

Definition totalStudents (users : list (Doc User)) : nat :=
  length (List.filter (fun u => match role (doc_data u) with
                                | Student => true
                                | Staff => false
                                end) users).

Definition totalStaff (users : list (Doc User)) : nat :=
  length (List.filter (fun u => match role (doc_data u) with
                                | Staff => true
                                | Student => false
                                end) users).

(** What the cards of the dashboard show. *)
Record Cards := mkCards {
  card_totalBooks : Z;
  card_availableBooks : Z;
  card_borrowedBooks : Z;
  card_users : nat;
  card_overdue : nat;
  card_totalFines : Q;
  card_staff : nat;
  card_students : nat
}.

(** The component: it renders its cards unless computing them throws. *)
Definition render (now : Z) (books : list (Doc Book)) (users : list (Doc User))
    (transactions : list (Doc Txn)) : option Cards :=
  fines ← totalFines transactions;
  Some (mkCards (totalBooks books) (availableBooks books)
                (borrowedBooks books) (length users)
                (length (overdueTransactions now transactions)) fines
                (totalStaff users) (totalStudents users)).

End Dashboard.

(** ** Book inventory *)

Module BookManagement.

Inductive AddEditOutcome :=
| Rejected      (* "Available copies cannot exceed total copies." *)
| BookUpdated   (* "Book updated successfully!" *)
| BookAdded.    (* "Book added successfully!" *)

(** The state of the form: the book being edited, if any, and the values of
    the fields.  The two counters of the form are integers ([handleChange]
    stores [parseInt(value) || 0], [openModal] the numbers of the book), which
    [parseInt] leaves as they are.  The id that the form of an edit carries
    along with the fields is the id of the document it is written to. *)
Record Form := mkForm {
  isEditMode : bool;
  currentBook : option (Doc Book);
  formData : Book
}.

Definition resetForm : Book := mkBook "" "" "" "Fiction" 1 1.

(** [openModal(book)] and [openModal()] *)
Definition openModal (book : option (Doc Book)) : Form :=
  match book with
  | Some b => mkForm true (Some b) (doc_data b)
  | None => mkForm false None resetForm
  end.

(** [setDoc(ref, data, { merge: true })] with all the fields of a book writes
    the book, whether the document exists or not; [addDoc] writes it under a
    new id. *)
Definition handleAddEdit (form : Form) (autoId : string)
    (books : gmap string Book) : AddEditOutcome * gmap string Book :=
  let data := formData form in
  if availableCopies data >? totalCopies data then (Rejected, books)
  else
    match (if isEditMode form then currentBook form else None) with
    | Some b =>
        if bool_decide (doc_id b = "") then (BookAdded, <[autoId := data]> books)
        else (BookUpdated, <[doc_id b := data]> books)
    | None => (BookAdded, <[autoId := data]> books)
    end.

(** [handleDelete(bookId)]; [confirmed] is the answer to [window.confirm]. *)
Definition handleDelete (bookId : string) (confirmed : bool)
    (books : gmap string Book) : gmap string Book :=
  if confirmed then delete bookId books else books.

End BookManagement.

(** ** Transaction desk *)

Module TransactionManagement.

Definition book_placeholder (id : string) : string := "[Book ID: " +:+ id +:+ "]".
Definition user_placeholder (id : string) : string := "[User ID: " +:+ id +:+ "]".

(** [x || fallback] on strings: the empty string is falsy. *)
Definition or_else (x : option string) (fallback : string) : string :=
  match x with
  | Some "" | None => fallback
  | Some s => s
  end.

Definition getBookTitle (books : list (Doc Book)) (id : string) : string :=
  or_else ((fun b => title (doc_data b)) <$> find_by_id id books)
          (book_placeholder id).

Definition getUserName (users : list (Doc User)) (id : string) : string :=
  or_else ((fun u => name (doc_data u)) <$> find_by_id id users)
          (user_placeholder id).

(** The books offered for a borrow. *)
Definition availableBooks (books : list (Doc Book)) : list (Doc Book) :=
  List.filter (fun b => availableCopies (doc_data b) >? 0) books.

Definition openTransactions (transactions : list (Doc Txn)) : list (Doc Txn) :=
  List.filter (fun t => match returnDate (doc_data t) with
                        | None => true
                        | Some _ => false
                        end) transactions.

Definition closedTransactions (transactions : list (Doc Txn))
  : list (Doc Txn) :=
  List.filter (fun t => match returnDate (doc_data t) with
                        | None => false
                        | Some _ => true
                        end) transactions.

(** The rows of the table of returns: [closedTransactions.slice(0, 10)]. *)
Definition closedRows (transactions : list (Doc Txn)) : list (Doc Txn) :=
  take 10 (closedTransactions transactions).

End TransactionManagement.

(** ** User accounts *)

Section UserManagement.
(** [String.prototype.trim] *)
Variable trim : string -> string.

(** [handleCreateUser]; the field [createdAt], which nothing reads, is left
    out of the user. *)
Definition handleCreateUser (name : string) (role : Role) (autoId : string)
    (users : gmap string User) : gmap string User :=
  if bool_decide (trim name = "") then users
  else <[autoId := mkUser (trim name) role false]> users.

End UserManagement.

(** The rows of the two tables of top authors and top publishers:
    [bookReports.author.slice(0, 5)]. *)
Definition topRows (rows : list (string * JSCount))
  : list (string * JSCount) :=
  take 5 rows.

(** The fields of a book that are not its counter of available copies. *)
Definition book_static (b : Book) : string * string * string * string * Z :=
  (title b, author b, publisher b, category b, totalCopies b).

(** The transaction a borrow writes. *)
Definition new_txn (tza : Z) (u b : string) (env : BorrowEnv) : Txn :=
  mkTxn b u (Some (b_server env)) (Some (borrow_dueDate tza env)) None 0.

(** ** What report VI counts *)

(** The month and the role under which report VI counts a transaction: those
    of a transaction whose user is in the view and whose borrow date is
    known. *)
Definition month_event (tza : Z) (users : list (Doc User)) (txn : Doc Txn)
  : option (string * Role) :=
  user ← find_by_id (userId (doc_data txn)) users;
  date ← borrowDate (doc_data txn);
  Some (getMonthYear tza date, role (doc_data user)).

Definition role_is (r : option Role) (r' : Role) : bool :=
  match r, r' with
  | None, _ | Some Student, Student | Some Staff, Staff => true
  | _, _ => false
  end.

(** The number of transactions counted under month [k], of role [r] or, for
    [None], of any role. *)
Definition month_count (tza : Z) (users : list (Doc User))
    (transactions : list (Doc Txn)) (k : string) (r : option Role) : nat :=
  length (List.filter
            (fun txn => match month_event tza users txn with
                        | Some e => bool_decide (e.1 = k) && role_is r e.2
                        | None => false
                        end) transactions).

(** Rows in descending order of their month. *)
Definition later_first (a b : string * Usage) : Prop :=
  localeCompare b.1 a.1 <= 0.

(** The number of events of month [k] and role [r] in a list of events. *)
Definition count_events (es : list (string * Role)) (k : string)
    (r : option Role) : nat :=
  length (List.filter (fun e => bool_decide (e.1 = k) && role_is r e.2) es).

(** ** The scenario of the specification

    Book B has one copy.  U1 and U2 both look at a view that shows the copy
    as available. *)

Definition book_B : Book :=
  mkBook "Dune" "Frank Herbert" "Chilton" "Fiction" 1 1.

Definition db_B : Store := mkStore {["B" := book_B]} ∅ ∅.

Definition t_borrow : Z := utc 2024 1 3 9 0.

Definition env_U1 : BorrowEnv := mkBorrowEnv t_borrow t_borrow (t_borrow + 250) "T1".
Definition env_U2 : BorrowEnv := mkBorrowEnv t_borrow t_borrow (t_borrow + 300) "T2".

(** The transaction of U1 as the view lists it while it is open. *)
Definition txn_T1 : Doc Txn :=
  ("T1", mkTxn "B" "U1" (Some (t_borrow + 250))
               (Some (t_borrow + 7 * msPerDay)) None 0).

(** U1 holds the only copy. *)
Definition db_lent : Store :=
  mkStore {["B" := set_availableCopies 0 book_B]} ∅ {[ "T1" := txn_T1.2 ]}.

(** The copy is shown as available although U1's transaction is open, as
    after an edit of the counter in the inventory form. *)
Definition db_full : Store :=
  mkStore {["B" := book_B]} ∅ {[ "T1" := txn_T1.2 ]}.

(** Returns 9 and 10 days after the borrow. *)
Definition env_day9 : ReturnEnv :=
  mkReturnEnv (t_borrow + 9 * msPerDay) (t_borrow + 9 * msPerDay + 200).
Definition env_day10 : ReturnEnv :=
  mkReturnEnv (t_borrow + 10 * msPerDay) (t_borrow + 10 * msPerDay + 200).

(** A user with two late returns, and the log after one of the two fines
    has been corrected to zero. *)
Definition db_users : Store :=
  mkStore ∅ {["U1" := mkUser "Ann" Student false;
              "U2" := mkUser "Bob" Staff true]} ∅.

Definition closed_txn (id uid : string) (fine : Q) : Doc Txn :=
  (id, mkTxn "B" uid (Some t_borrow) (Some (t_borrow + 7 * msPerDay))
             (Some (t_borrow + 9 * msPerDay)) fine).

Definition log_two_late : list (Doc Txn) :=
  [closed_txn "T1" "U1" 1.00; closed_txn "T2" "U1" 0.50;
   closed_txn "T3" "U2" 0].


Definition view_flagged : list (Doc User) :=
  [("U1", mkUser "Ann" Student true); ("U2", mkUser "Bob" Staff true)].

Definition log_one_late : list (Doc Txn) :=
  [closed_txn "T1" "U1" 1.00; closed_txn "T2" "U1" 0;
   closed_txn "T3" "U2" 0].

(** A log with a transaction of a deleted user (U9), whose borrow date the
    view does not have yet, and a transaction on a deleted book (Z). *)
Definition log_dangling : list (Doc Txn) :=
  [closed_txn "T1" "U1" 1.00;
   ("T4", mkTxn "B" "U9" None (Some (t_borrow + 7 * msPerDay)) None 0);
   ("T5", mkTxn "Z" "U2" (Some t_borrow) (Some (t_borrow + 7 * msPerDay))
                None 0);
   closed_txn "T2" "U1" 0.50].

(** The text V8 gives the built-in functions of [Object.prototype]. *)
Definition v8_source_text (k : string) : string :=
  "function "
    +:+ (if bool_decide (k = "constructor") then "Object" else k)
    +:+ "() { [native code] }".

(** Six books by six authors and publishers, and nine borrows of them. *)
Definition shelf : list (Doc Book) :=
  map (fun a => (a, mkBook a a a "Fiction" 3 3)) ["a"; "b"; "c"; "d"; "e"; "f"].

Definition log_shelf : list (Doc Txn) :=
  imap (fun i b =>
          (pretty i, mkTxn b "U1" (Some t_borrow)
                           (Some (t_borrow + 7 * msPerDay)) None 0))
       ["a"; "b"; "b"; "c"; "d"; "e"; "f"; "f"; "f"].



(** * Properties *)

(** ** Fine calculator *)

Section FineCalculator.

Lemma Math_ceil_quot (a b : Z) :
  0 < b -> Math_ceil (inject_Z a / inject_Z b) = - ((- a) / b).
Proof.
  intros Hb. unfold Math_ceil, Qceiling. f_equal.
  rewrite (Zdiv_Qdiv (- a) b). apply Qfloor_comp.
  rewrite inject_Z_opp. field.
  intros H. apply (inject_Z_injective b 0) in H. lia.
Qed.

Lemma ceil_days_spec (e k : Z) :
  k * msPerDay < e <= (k + 1) * msPerDay -> ceil_days e = k + 1.
Proof.
  intros He. unfold ceil_days.
  assert (Hd : 0 < msPerDay) by reflexivity.
  assert ((- e) / msPerDay = - (k + 1)); [|lia].
  symmetry. apply (Z.div_unique_pos _ _ _ ((k + 1) * msPerDay - e)); lia.
Qed.

(** [ceil_days e] is the least number of whole days that cover [e]. *)
Lemma ceil_days_least (e : Z) :
  (ceil_days e - 1) * msPerDay < e <= ceil_days e * msPerDay.
Proof.
  unfold ceil_days.
  assert (Hd : 0 < msPerDay) by reflexivity.
  pose proof (Z.div_mod (- e) msPerDay) as Hdm.
  pose proof (Z.mod_pos_bound (- e) msPerDay Hd) as Hm.
  lia.
Qed.

(** [round2 x] is a number of hundredths, nearest to [x]. *)
Lemma round2_near (x : Q) :
  (x - (1 # 200) < round2 x)%Q /\ (round2 x <= x + (1 # 200))%Q.
Proof.
  unfold round2.
  set (n := Qfloor (x * 100 + (1 # 2))).
  pose proof (Qfloor_le (x * 100 + (1 # 2))) as Hle.
  pose proof (Qlt_floor (x * 100 + (1 # 2))) as Hlt.
  fold n in Hle, Hlt.
  assert (Hn : (n # 100 == inject_Z n / 100)%Q).
  { unfold Qeq, Qdiv, Qmult, Qinv, inject_Z. simpl. lia. }
  rewrite Hn. rewrite inject_Z_plus in Hlt. split.
  - apply Qlt_shift_div_l; [reflexivity|].
    apply (Qplus_lt_l _ _ 1).
    eapply Qle_lt_trans; [|exact Hlt].
    apply Qle_lteq. right. field.
  - apply Qle_shift_div_r; [reflexivity|].
    eapply Qle_trans; [exact Hle|].
    apply Qle_lteq. right. field.
Qed.

(** Half an integer has at most two decimals: rounding keeps it. *)
Lemma round2_half (d : Z) : round2 (inject_Z d * (1 # 2)) = (50 * d) # 100.
Proof.
  unfold round2. f_equal.
  transitivity (Qfloor (inject_Z (50 * d) + (1 # 2))).
  - apply Qfloor_comp. rewrite inject_Z_mult. field.
  - unfold Qfloor, inject_Z, Qplus; simpl Qnum; simpl Qden.
    change (Z.pos (1 * 2)) with 2.
    symmetry. apply (Z.div_unique_pos _ _ _ 1); lia.
Qed.

Lemma calculateFine_refines (due ret : Z) :
  calculateFine (Some due) (Some ret) = computeFine due ret.
Proof.
  unfold calculateFine, computeFine.
  destruct (ret <=? due); [reflexivity|].
  unfold getTime. rewrite Math_ceil_quot by reflexivity.
  reflexivity.
Qed.

Lemma calculateFine_on_time (due ret : Z) :
  ret <= due -> calculateFine (Some due) (Some ret) = 0%Q.
Proof.
  intros H. unfold calculateFine.
  destruct (Z.leb_spec ret due); [reflexivity|lia].
Qed.

(** Every started day past the due instant costs one rate. *)
Lemma calculateFine_late (due e k : Z) :
  0 <= k -> k * msPerDay < e <= (k + 1) * msPerDay ->
  calculateFine (Some due) (Some (due + e)) = (50 * (k + 1)) # 100.
Proof.
  intros Hk He. rewrite calculateFine_refines. unfold computeFine.
  destruct (Z.leb_spec (due + e) due) as [Hle|_].
  - assert (0 <= k * msPerDay) by (apply Z.mul_nonneg_nonneg; [lia|easy]).
    lia.
  - replace (due + e - due) with e by lia.
    rewrite (ceil_days_spec e k He). apply round2_half.
Qed.

End FineCalculator.

(** C5.  On two dates the fine is 0 when the return is not after the due
    instant, and otherwise the rounded product of the rate and the number of
    started late days; ten days late cost 5.00, one day 0.50, and any part of
    a first day, one minute included, costs a full day. *)
Theorem C5_calculateFine_correct :
  (forall due ret : Z,
      calculateFine (Some due) (Some ret) = computeFine due ret) /\
  (forall due ret : Z,
      ret <= due -> calculateFine (Some due) (Some ret) = 0%Q) /\
  (forall due ret : Z,
      due < ret ->
      calculateFine (Some due) (Some ret)
      = round2 (inject_Z (ceil_days (ret - due)) * (1 # 2))) /\
  (forall due : Z,
      calculateFine (Some due) (Some (due + 10 * msPerDay)) = 5.00%Q) /\
  (forall due : Z,
      calculateFine (Some due) (Some (due + msPerDay)) = 0.50%Q) /\
  (forall due e : Z,
      0 < e <= msPerDay ->
      calculateFine (Some due) (Some (due + e)) = 0.50%Q).
Proof.
  split; [exact calculateFine_refines|].
  split; [exact calculateFine_on_time|].
  split.
  { intros due ret H. rewrite calculateFine_refines. unfold computeFine.
    destruct (Z.leb_spec ret due); [lia|reflexivity]. }
  split.
  { intros due. apply (calculateFine_late due (10 * msPerDay) 9); [lia|].
    unfold msPerDay. lia. }
  split.
  { intros due. apply (calculateFine_late due msPerDay 0); [lia|].
    unfold msPerDay. lia. }
  intros due e He. apply (calculateFine_late due e 0); [lia|].
  unfold msPerDay in *. lia.
Qed.

(** The literal cases of the specification: due on 2024-01-10 at 00:00. *)
Lemma C5_calculateFine_correct_witness :
  let due := utc 2024 1 10 0 0 in
  calculateFine (Some due) (Some (utc 2024 1 10 0 0)) = 0%Q /\
  calculateFine (Some due) (Some (utc 2024 1 10 0 1)) = 0.50%Q /\
  calculateFine (Some due) (Some (utc 2024 1 11 0 0)) = 0.50%Q /\
  calculateFine (Some due) (Some (utc 2024 1 20 0 0)) = 5.00%Q.
Proof.
  intros due.
  destruct C5_calculateFine_correct as (_ & Hzero & _ & Hten & Hone & Hpart).
  split; [apply Hzero; vm_compute; discriminate|].
  split; [apply (Hpart due 60000); vm_compute; split; [reflexivity|discriminate]|].
  split; [apply (Hone due)|apply (Hten due)].
Defined.

(** C10.  A null due date or a null return date gives the fine 0: the
    calculator is defined on every pair of possibly null dates. *)
Theorem C10_calculateFine_null (due ret : option Z) :
  due = None \/ ret = None -> calculateFine due ret = 0%Q.
Proof.
  intros [-> | ->]; [reflexivity|]. destruct due; reflexivity.
Qed.

Lemma C10_calculateFine_null_witness :
  calculateFine None (Some 5) = 0%Q /\ calculateFine (Some 5) None = 0%Q.
Proof.
  split.
  - apply (C10_calculateFine_null None (Some 5)). left. reflexivity.
  - apply (C10_calculateFine_null (Some 5) None). right. reflexivity.
Defined.

(** ** Snapshots *)

Section Snapshots.
Context {A : Type}.
Implicit Types (l : list (Doc A)) (m : gmap string A).

Lemma find_by_id_Some l k d :
  find_by_id k l = Some d -> doc_id d = k /\ d ∈ l.
Proof.
  unfold find_by_id. intros H. apply find_some in H as [Hin Hk].
  apply bool_decide_eq_true in Hk. split; [exact Hk|].
  apply list_elem_of_In. exact Hin.
Qed.

Lemma find_by_id_None l k d :
  find_by_id k l = None -> d ∈ l -> doc_id d <> k.
Proof.
  unfold find_by_id. intros H Hin Hk.
  apply list_elem_of_In in Hin.
  pose proof (find_none _ _ H d Hin) as Hf. simpl in Hf.
  apply bool_decide_eq_false in Hf. contradiction.
Qed.

(** Looking a document up in the snapshot of a collection is looking it
    up in the collection. *)
Lemma find_by_id_snapshot m k :
  find_by_id k (snapshot m) = (fun v => (k, v)) <$> m !! k.
Proof.
  destruct (find_by_id k (snapshot m)) as [[k' v]|] eqn:Hf.
  - apply find_by_id_Some in Hf as [Hk Hin]. simpl in Hk. subst k'.
    apply elem_of_map_to_list in Hin. rewrite Hin. reflexivity.
  - destruct (m !! k) as [v|] eqn:Hm; [|reflexivity].
    exfalso. apply (find_by_id_None _ _ (k, v) Hf); [|reflexivity].
    apply elem_of_map_to_list. exact Hm.
Qed.

Lemma t_update_Some (id : string) (f : A -> A) m x :
  m !! id = Some x -> t_update id f m = Some (<[id := f x]> m).
Proof. intros H. unfold t_update. rewrite H. reflexivity. Qed.

Lemma t_update_None (id : string) (f : A -> A) m :
  m !! id = None -> t_update id f m = None.
Proof. intros H. unfold t_update. rewrite H. reflexivity. Qed.
End Snapshots.

(** ** The handlers, case by case *)

Section HandlerCases.
Variable tza : Z.

(** Setting the day of month to that of the same instant plus [k] moves
    the date by [k] whole days. *)
Lemma setDate_getDate_add (t k : Z) :
  setDate tza t (getDate tza t + k) = t + k * msPerDay.
Proof.
  unfold setDate, getDate, DateFromTime, MakeDay, MakeDate, UTC,
    TimeWithinDay, Day, LocalTime.
  set (lt := t + tza).
  set (first := days_from_civil _ _ 1).
  assert (Hd : msPerDay <> 0) by discriminate.
  pose proof (Z.div_mod lt msPerDay Hd) as Hdm.
  replace (first + (lt / msPerDay - (first + 1 - 1) + 1 + k) - 1)
    with (lt / msPerDay + k) by lia.
  unfold lt in *. lia.
Qed.

Lemma borrow_body_Some u b env db bk :
  sbooks db !! b = Some bk ->
  borrow_body tza u b env db
  = Some (mkStore
            (<[b := set_availableCopies (availableCopies bk - 1) bk]>
               (sbooks db))
            (susers db)
            (<[b_autoId env :=
                 mkTxn b u (Some (b_server env))
                       (Some (borrow_dueDate tza env)) None 0]>
               (stransactions db))).
Proof.
  intros Hb. unfold borrow_body. rewrite Hb. simpl.
  rewrite (t_update_Some _ _ _ _ Hb). reflexivity.
Qed.

Lemma borrow_body_None u b env db :
  sbooks db !! b = None -> borrow_body tza u b env db = None.
Proof. intros Hb. unfold borrow_body. rewrite Hb. reflexivity. Qed.

(** A borrow either leaves the database as it is or commits the
    decrement together with the new transaction. *)
Lemma handleBorrow_cases books u b env db :
  ((handleBorrow tza books u b env db).1 <> Borrowed /\
   (handleBorrow tza books u b env db).2 = db) \/
  exists sel bk,
    find_by_id b books = Some sel /\
    1 <= availableCopies (doc_data sel) /\
    sbooks db !! b = Some bk /\
    handleBorrow tza books u b env db
    = (Borrowed,
       mkStore
         (<[b := set_availableCopies (availableCopies bk - 1) bk]>
            (sbooks db))
         (susers db)
         (<[b_autoId env :=
              mkTxn b u (Some (b_server env))
                    (Some (borrow_dueDate tza env)) None 0]>
            (stransactions db))).
Proof.
  unfold handleBorrow.
  destruct (bool_decide (u = "") || bool_decide (b = ""));
    [left; split; [discriminate|reflexivity]|].
  destruct (find_by_id b books) as [sel|] eqn:Hsel;
    [|left; split; [discriminate|reflexivity]].
  destruct (Z.ltb_spec (availableCopies (doc_data sel)) 1);
    [left; split; [discriminate|reflexivity]|].
  unfold runTransaction.
  destruct (sbooks db !! b) as [bk|] eqn:Hb.
  - right. exists sel, bk. rewrite (borrow_body_Some _ _ _ _ _ Hb). easy.
  - left. rewrite (borrow_body_None _ _ _ _ Hb).
    split; [discriminate|reflexivity].
Qed.

Lemma return_body_Some txn fine env db bk t :
  sbooks db !! bookId (doc_data txn) = Some bk ->
  stransactions db !! doc_id txn = Some t ->
  return_body txn fine env db
  = Some (mkStore
            (<[bookId (doc_data txn) :=
                 set_availableCopies (availableCopies bk + 1) bk]>
               (sbooks db))
            (susers db)
            (<[doc_id txn := close_txn (Some (r_server env)) fine t]>
               (stransactions db))).
Proof.
  intros Hb Ht. unfold return_body. rewrite Hb. simpl.
  rewrite (t_update_Some _ _ _ _ Hb). simpl.
  rewrite (t_update_Some _ _ _ _ Ht). reflexivity.
Qed.

Lemma return_body_None txn fine env db :
  sbooks db !! bookId (doc_data txn) = None \/
  stransactions db !! doc_id txn = None ->
  return_body txn fine env db = None.
Proof.
  intros H. unfold return_body.
  destruct (sbooks db !! bookId (doc_data txn)) as [bk|] eqn:Hb;
    [|reflexivity].
  destruct H as [H|H]; [discriminate|]. simpl.
  rewrite (t_update_Some _ _ _ _ Hb). simpl.
  rewrite (t_update_None _ _ _ H). reflexivity.
Qed.

(** The guard of the return handler: a transaction whose snapshot already
    carries a return date is left alone, whatever the database holds. *)
Lemma handleReturn_closed txn env db d :
  returnDate (doc_data txn) = Some d ->
  handleReturn txn env db = (ReturnAlreadyReturned, db).
Proof. intros H. unfold handleReturn. rewrite H. reflexivity. Qed.

Lemma handleReturn_open txn env db bk t :
  returnDate (doc_data txn) = None ->
  sbooks db !! bookId (doc_data txn) = Some bk ->
  stransactions db !! doc_id txn = Some t ->
  let fine := calculateFine (dueDate (doc_data txn)) (Some (r_now env)) in
  handleReturn txn env db
  = (Returned fine,
     mkStore
       (<[bookId (doc_data txn) :=
            set_availableCopies (availableCopies bk + 1) bk]> (sbooks db))
       (susers db)
       (<[doc_id txn := close_txn (Some (r_server env)) fine t]>
          (stransactions db))).
Proof.
  intros Hopen Hb Ht fine. unfold handleReturn, runTransaction.
  rewrite Hopen. fold fine.
  rewrite (return_body_Some _ _ _ _ _ _ Hb Ht). reflexivity.
Qed.

Lemma handleReturn_failed txn env db :
  returnDate (doc_data txn) = None ->
  sbooks db !! bookId (doc_data txn) = None \/
  stransactions db !! doc_id txn = None ->
  handleReturn txn env db = (ReturnFailed, db).
Proof.
  intros Hopen H. unfold handleReturn, runTransaction. rewrite Hopen.
  rewrite (return_body_None _ _ _ _ H). reflexivity.
Qed.

End HandlerCases.

(** ** Counting open transactions *)

Section OpenCount.
Implicit Types (txns : gmap string Txn) (t : Txn) (b k : string).

(** Writing one transaction raises the count of a book by at most one,
    and only when the written transaction is an open one of that book. *)
Lemma openCount_insert_le b k t txns :
  (openCount b (<[k := t]> txns)
   <= openCount b txns + (if decide (open_for b (k, t)) then 1 else 0))%nat.
Proof.
  unfold openCount. rewrite map_filter_insert.
  destruct (decide (open_for b (k, t))).
  - rewrite map_size_insert.
    destruct (filter (open_for b) txns !! k); simpl; lia.
  - rewrite map_filter_delete, map_size_delete.
    destruct (filter (open_for b) txns !! k); simpl; lia.
Qed.

Lemma openCount_insert_other b k t txns :
  bookId t <> b -> (openCount b (<[k := t]> txns) <= openCount b txns)%nat.
Proof.
  intros Hb. pose proof (openCount_insert_le b k t txns) as H.
  destruct (decide (open_for b (k, t))) as [[Hc _]|_]; [|lia].
  simpl in Hc. contradiction.
Qed.

(** Closing a stored transaction lowers the count of its book by one when
    it was open, and changes no other count. *)
Lemma openCount_close b k t t' txns :
  txns !! k = Some t -> returnDate t' <> None ->
  openCount b (<[k := t']> txns)
  = (openCount b txns - (if decide (open_for b (k, t)) then 1 else 0))%nat
  /\ (open_for b (k, t) -> (1 <= openCount b txns)%nat).
Proof.
  intros Hk Hclosed. unfold openCount.
  rewrite map_filter_insert.
  destruct (decide (open_for b (k, t'))) as [[_ Ho]|_]; [contradiction|].
  rewrite map_filter_delete, map_size_delete.
  destruct (decide (open_for b (k, t))) as [Hopen|Hnot].
  - assert (Hf : filter (open_for b) txns !! k = Some t)
      by (apply map_lookup_filter_Some; split; assumption).
    rewrite Hf. split; [lia|]. intros _.
    destruct (decide (size (filter (open_for b) txns) = 0%nat)) as [Hs|Hs];
      [|lia].
    apply map_size_empty_inv in Hs. rewrite Hs in Hf.
    rewrite lookup_empty in Hf. discriminate.
  - assert (Hf : filter (open_for b) txns !! k = None).
    { apply map_lookup_filter_None. right. intros t0 Ht0.
      rewrite Hk in Ht0. injection Ht0 as <-. exact Hnot. }
    rewrite Hf. split; [simpl; lia|]. intros Ho. contradiction.
Qed.

Lemma openCount_insert_fresh b k t txns :
  txns !! k = None ->
  openCount b (<[k := t]> txns)
  = (openCount b txns + (if decide (open_for b (k, t)) then 1 else 0))%nat.
Proof.
  intros Hk. unfold openCount. rewrite map_filter_insert.
  assert (Hf : filter (open_for b) txns !! k = None).
  { apply map_lookup_filter_None. left. exact Hk. }
  destruct (decide (open_for b (k, t))).
  - rewrite map_size_insert, Hf. simpl. lia.
  - rewrite map_filter_delete, map_size_delete, Hf. simpl. lia.
Qed.
End OpenCount.

(** ** Borrow and return keep the counters within their bounds *)

Section Invariants.
Variable tza : Z.

Lemma covered_of_I1_I2 db : I1 db -> I2 db -> covered db.
Proof.
  intros H1 H2 id b Hb. specialize (H1 id b Hb). specialize (H2 id b Hb).
  simpl in *. lia.
Qed.

Lemma I1_of_covered db : covered db -> I1 db.
Proof.
  intros H id b Hb. specialize (H id b Hb). simpl in *. lia.
Qed.

Lemma covered_borrow u b env db :
  covered db ->
  covered (handleBorrow tza (snapshot (sbooks db)) u b env db).2.
Proof.
  intros Hinv.
  destruct (handleBorrow_cases tza (snapshot (sbooks db)) u b env db)
    as [[_ ->]|(sel & bk & Hsel & Havail & Hb & ->)]; [exact Hinv|].
  rewrite find_by_id_snapshot, Hb in Hsel. injection Hsel as <-.
  simpl in Havail. intros id b' Hb'. simpl in *.
  destruct (decide (b = id)) as [->|Hne].
  - rewrite lookup_insert_eq in Hb'. injection Hb' as <-.
    destruct (Hinv id bk Hb) as [H0 Hc]. simpl.
    pose proof (openCount_insert_le id (b_autoId env)
                  (mkTxn id u (Some (b_server env))
                         (Some (borrow_dueDate tza env)) None 0)
                  (stransactions db)) as Hle.
    destruct (decide _) in Hle; lia.
  - rewrite lookup_insert_ne in Hb' by exact Hne.
    destruct (Hinv id b' Hb') as [H0 Hc]. split; [exact H0|].
    pose proof (openCount_insert_other id (b_autoId env)
                  (mkTxn b u (Some (b_server env))
                         (Some (borrow_dueDate tza env)) None 0)
                  (stransactions db) Hne) as Hle.
    lia.
Qed.

Lemma covered_return tid env db txn :
  covered db ->
  find_by_id tid (snapshot (stransactions db)) = Some txn ->
  covered (handleReturn txn env db).2.
Proof.
  intros Hinv Hfind.
  rewrite find_by_id_snapshot in Hfind.
  destruct (stransactions db !! tid) as [t|] eqn:Ht; [|discriminate].
  injection Hfind as <-.
  destruct (returnDate t) as [d|] eqn:Hopen.
  { rewrite (handleReturn_closed (tid, t) env db d Hopen). exact Hinv. }
  destruct (sbooks db !! bookId t) as [bk|] eqn:Hb.
  2:{ rewrite handleReturn_failed; [exact Hinv|exact Hopen|left; exact Hb]. }
  rewrite (handleReturn_open (tid, t) env db bk t Hopen Hb Ht).
  intros id b' Hb'. simpl in *.
  set (fine := calculateFine (dueDate t) (Some (r_now env))) in *.
  destruct (openCount_close id tid t
              (close_txn (Some (r_server env)) fine t)
              (stransactions db) Ht) as [Hcount Hpos]; [discriminate|].
  rewrite Hcount.
  destruct (decide (bookId t = id)) as [<-|Hne].
  - rewrite lookup_insert_eq in Hb'. injection Hb' as <-.
    destruct (Hinv _ bk Hb) as [H0 Hc]. simpl.
    assert (Ho : open_for (bookId t) (tid, t)) by (split; [reflexivity|exact Hopen]).
    specialize (Hpos Ho).
    destruct (decide (open_for (bookId t) (tid, t))); [|contradiction].
    lia.
  - rewrite lookup_insert_ne in Hb' by exact Hne.
    destruct (Hinv id b' Hb') as [H0 Hc]. split; [exact H0|].
    destruct (decide (open_for id (tid, t))) as [[Hc' _]|_];
      [simpl in Hc'; contradiction|].
    lia.
Qed.

Lemma covered_step db op : covered db -> covered (step tza db op).
Proof.
  intros Hinv. destruct op as [u b env|tid env]; simpl.
  - apply covered_borrow. exact Hinv.
  - destruct (find_by_id tid (snapshot (stransactions db))) as [txn|] eqn:Hf;
      [|exact Hinv].
    apply (covered_return tid). exact Hinv. exact Hf.
Qed.

Lemma covered_run ops db : covered db -> covered (run tza ops db).
Proof.
  revert db. induction ops as [|op ops IH]; intros db Hinv; [exact Hinv|].
  simpl. apply IH. apply covered_step. exact Hinv.
Qed.

End Invariants.

(** ** I2 along a run *)

Section OpenTransactions.
Variable tza : Z.

Lemma I2_borrow u b env db :
  stransactions db !! b_autoId env = None ->
  I2 db -> I2 (handleBorrow tza (snapshot (sbooks db)) u b env db).2.
Proof.
  intros Hfresh Hinv.
  destruct (handleBorrow_cases tza (snapshot (sbooks db)) u b env db)
    as [[_ ->]|(sel & bk & _ & _ & Hb & ->)]; [exact Hinv|].
  intros id b' Hb'. simpl in *.
  rewrite (openCount_insert_fresh id _ _ _ Hfresh).
  destruct (decide (b = id)) as [->|Hne].
  - rewrite lookup_insert_eq in Hb'. injection Hb' as <-.
    specialize (Hinv id bk Hb). simpl in *.
    rewrite decide_True by (split; reflexivity). lia.
  - rewrite lookup_insert_ne in Hb' by exact Hne.
    specialize (Hinv id b' Hb'). simpl in *.
    rewrite decide_False; [lia|]. intros [Hc _]. simpl in Hc. contradiction.
Qed.

Lemma I2_return tid env db txn :
  I2 db ->
  find_by_id tid (snapshot (stransactions db)) = Some txn ->
  I2 (handleReturn txn env db).2.
Proof.
  intros Hinv Hfind.
  rewrite find_by_id_snapshot in Hfind.
  destruct (stransactions db !! tid) as [t|] eqn:Ht; [|discriminate].
  injection Hfind as <-.
  destruct (returnDate t) as [d|] eqn:Hopen.
  { rewrite (handleReturn_closed (tid, t) env db d Hopen). exact Hinv. }
  destruct (sbooks db !! bookId t) as [bk|] eqn:Hb.
  2:{ rewrite handleReturn_failed; [exact Hinv|exact Hopen|left; exact Hb]. }
  rewrite (handleReturn_open (tid, t) env db bk t Hopen Hb Ht).
  intros id b' Hb'. simpl in *.
  set (fine := calculateFine (dueDate t) (Some (r_now env))) in *.
  destruct (openCount_close id tid t
              (close_txn (Some (r_server env)) fine t)
              (stransactions db) Ht) as [Hcount Hpos]; [discriminate|].
  rewrite Hcount.
  destruct (decide (bookId t = id)) as [<-|Hne].
  - rewrite lookup_insert_eq in Hb'. injection Hb' as <-.
    specialize (Hinv _ bk Hb). simpl in *.
    assert (Ho : open_for (bookId t) (tid, t))
      by (split; [reflexivity|exact Hopen]).
    specialize (Hpos Ho). rewrite decide_True by exact Ho. lia.
  - rewrite lookup_insert_ne in Hb' by exact Hne.
    specialize (Hinv id b' Hb'). simpl in *.
    rewrite decide_False; [lia|]. intros [Hc _]. simpl in Hc. contradiction.
Qed.

(** With fresh ids for the new transactions, a run from views that show the
    database keeps I2 as well. *)
Lemma I2_run ops db : fresh_ids tza ops db -> I2 db -> I2 (run tza ops db).
Proof.
  revert db. induction ops as [|op ops IH]; intros db Hfresh Hinv;
    [exact Hinv|].
  destruct Hfresh as [Hop Hfresh]. cbn [run foldl]. apply IH; [exact Hfresh|].
  destruct op as [u b env|tid env]; simpl.
  - apply I2_borrow; assumption.
  - destruct (find_by_id tid (snapshot (stransactions db))) as [txn|] eqn:Hf;
      [|exact Hinv].
    apply (I2_return tid); assumption.
Qed.

(** Whatever the views show, the handlers write a positive fine only
    together with a return date. *)
Lemma fined_closed_borrow books u b env db :
  fined_closed_store db ->
  fined_closed_store (handleBorrow tza books u b env db).2.
Proof.
  intros Hinv.
  destruct (handleBorrow_cases tza books u b env db)
    as [[_ ->]|(sel & bk & _ & _ & _ & ->)]; [exact Hinv|].
  unfold fined_closed_store. simpl. apply map_Forall_insert_2; [|exact Hinv].
  simpl. intros H. apply Qlt_irrefl in H. contradiction.
Qed.

Lemma fined_closed_return txn env db :
  fined_closed_store db -> fined_closed_store (handleReturn txn env db).2.
Proof.
  intros Hinv. unfold handleReturn, runTransaction.
  destruct (returnDate (doc_data txn)); [exact Hinv|].
  destruct (return_body txn _ env db) as [db'|] eqn:Hbody; [|exact Hinv].
  unfold return_body in Hbody.
  destruct (sbooks db !! bookId (doc_data txn)) as [bk|]; [|discriminate].
  simpl in Hbody.
  destruct (t_update (bookId (doc_data txn)) _ (sbooks db)) as [books'|];
    [|discriminate].
  simpl in Hbody. unfold t_update in Hbody.
  destruct (stransactions db !! doc_id txn) as [t|]; [|discriminate].
  simpl in Hbody. injection Hbody as <-.
  unfold fined_closed_store. simpl. apply map_Forall_insert_2; [|exact Hinv].
  simpl. intros _. discriminate.
Qed.

Lemma fined_closed_snapshot db :
  fined_closed_store db -> fined_closed (snapshot (stransactions db)).
Proof.
  intros Hinv. apply Forall_forall. intros [id t] Hin.
  apply elem_of_map_to_list in Hin. exact (Hinv id t Hin).
Qed.

End OpenTransactions.

(** ** Borrow *)

(** Whether a borrow goes through is decided on the view alone: once the
    view shows a copy, the transaction decrements whatever count the
    database holds. *)
Lemma handleBorrow_decided_on_view tza books u b env db sel bk :
  u <> "" -> b <> "" ->
  find_by_id b books = Some sel ->
  1 <= availableCopies (doc_data sel) ->
  sbooks db !! b = Some bk ->
  handleBorrow tza books u b env db
  = (Borrowed,
     mkStore
       (<[b := set_availableCopies (availableCopies bk - 1) bk]> (sbooks db))
       (susers db)
       (<[b_autoId env :=
            mkTxn b u (Some (b_server env))
                  (Some (borrow_dueDate tza env)) None 0]>
          (stransactions db))).
Proof.
  intros Hu Hb Hsel Havail Hbk. unfold handleBorrow, runTransaction.
  rewrite (bool_decide_eq_false_2 _ Hu), (bool_decide_eq_false_2 _ Hb).
  simpl. rewrite Hsel.
  destruct (Z.ltb_spec (availableCopies (doc_data sel)) 1); [lia|].
  rewrite (borrow_body_Some _ _ _ _ _ _ Hbk). reflexivity.
Qed.

(** Any number of borrows fired from a view that shows a copy go through,
    however few copies the database has left. *)
Lemma borrow_all_succeed tza books b calls sel :
  b <> "" -> Forall (fun c => c.1 <> "") calls ->
  find_by_id b books = Some sel ->
  1 <= availableCopies (doc_data sel) ->
  forall db bk,
    sbooks db !! b = Some bk ->
    (borrow_all tza books b calls db).1 = replicate (length calls) Borrowed /\
    availableCopies <$> sbooks (borrow_all tza books b calls db).2 !! b
    = Some (availableCopies bk - Z.of_nat (length calls)).
Proof.
  intros Hb Hcalls Hsel Havail.
  induction Hcalls as [|[u env] calls Hu _ IH]; intros db bk Hbk.
  - simpl. rewrite Hbk. simpl. split; [reflexivity|]. f_equal. lia.
  - cbn [borrow_all].
    rewrite (handleBorrow_decided_on_view tza books u b env db sel bk
               Hu Hb Hsel Havail Hbk).
    cbn [fst snd length replicate].
    match goal with
    | |- context [borrow_all tza books b calls ?db1] =>
        destruct (IH db1 (set_availableCopies (availableCopies bk - 1) bk))
          as [Hout Hcount]
    end.
    { simpl. apply lookup_insert_eq. }
    rewrite Hout, Hcount. split; [reflexivity|]. simpl. f_equal. lia.
Qed.

(** C1.  Two borrows fired from views that both show the single copy of
    book B: both are committed, and the counter of B ends at -1. *)
Theorem C1_concurrent_borrows_oversell :
  let books := snapshot (sbooks db_B) in
  let r1 := handleBorrow 0 books "U1" "B" env_U1 db_B in
  let r2 := handleBorrow 0 books "U2" "B" env_U2 r1.2 in
  availableCopies <$> sbooks db_B !! "B" = Some 1 /\
  r1.1 = Borrowed /\ r2.1 = Borrowed /\
  availableCopies <$> sbooks r2.2 !! "B" = Some (-1) /\
  size (stransactions r2.2) = 2%nat.
Proof. vm_compute. repeat split; reflexivity. Qed.

Lemma handleBorrow_unavailable tza books u b env db sel :
  u <> "" -> b <> "" ->
  find_by_id b books = Some sel ->
  availableCopies (doc_data sel) < 1 ->
  handleBorrow tza books u b env db = (BorrowUnavailable, db).
Proof.
  intros Hu Hb Hsel Havail. unfold handleBorrow.
  rewrite (bool_decide_eq_false_2 _ Hu), (bool_decide_eq_false_2 _ Hb).
  simpl. rewrite Hsel.
  destruct (Z.ltb_spec (availableCopies (doc_data sel)) 1); [reflexivity|lia].
Qed.

(** C4.  A book with fewer than one available copy in the database, at the
    moment a borrow of it is checked: the borrow is refused as unavailable,
    the database left as it was, only when the view of the caller shows
    fewer than one copy too.  When the view still shows a copy, the borrow
    is committed: the counter goes below zero and an open transaction is
    written. *)
Theorem C4_unavailable_decided_on_view tza books u b env db sel bk :
  u <> "" -> b <> "" ->
  sbooks db !! b = Some bk -> availableCopies bk < 1 ->
  find_by_id b books = Some sel ->
  let r := handleBorrow tza books u b env db in
  (availableCopies (doc_data sel) < 1 -> r = (BorrowUnavailable, db)) /\
  (1 <= availableCopies (doc_data sel) ->
   r.1 = Borrowed /\
   sbooks r.2 !! b = Some (set_availableCopies (availableCopies bk - 1) bk) /\
   availableCopies bk - 1 < 0 /\
   stransactions r.2 !! b_autoId env = Some (new_txn tza u b env)).
Proof.
  intros Hu Hb Hbk Hnone Hsel r. unfold r. split.
  - intros Hview.
    apply (handleBorrow_unavailable tza books u b env db sel Hu Hb Hsel Hview).
  - intros Hview.
    rewrite (handleBorrow_decided_on_view tza books u b env db sel bk
               Hu Hb Hsel Hview Hbk).
    cbn [fst snd sbooks stransactions]. rewrite !lookup_insert_eq.
    split; [reflexivity|]. split; [reflexivity|]. split; [lia|reflexivity].
Qed.

(** The single copy of book B is on loan to U1; the view of U2 still shows
    it. *)
Lemma C4_unavailable_decided_on_view_witness :
  let r := handleBorrow 0 (snapshot (sbooks db_B)) "U2" "B" env_U2 db_lent in
  availableCopies <$> sbooks db_lent !! "B" = Some 0 /\
  r.1 = Borrowed /\
  availableCopies <$> sbooks r.2 !! "B" = Some (-1) /\
  stransactions r.2 !! "T2" = Some (new_txn 0 "U2" "B" env_U2) /\
  size (stransactions r.2) = 2%nat.
Proof.
  cbv zeta.
  destruct (C4_unavailable_decided_on_view 0 (snapshot (sbooks db_B))
              "U2" "B" env_U2 db_lent ("B", book_B)
              (set_availableCopies 0 book_B)) as [_ Hstale].
  - discriminate.
  - discriminate.
  - vm_compute. reflexivity.
  - simpl. lia.
  - vm_compute. reflexivity.
  - destruct Hstale as (Hout & Hbook & _ & Htxn); [simpl; lia|].
    split; [vm_compute; reflexivity|].
    split; [exact Hout|].
    split; [rewrite Hbook; reflexivity|].
    split; [exact Htxn|vm_compute; reflexivity].
Defined.

(** The same on a view that shows the database as it is. *)
Lemma borrow_unavailable_synced tza u b env db bk :
  u <> "" -> b <> "" ->
  sbooks db !! b = Some bk -> availableCopies bk < 1 ->
  handleBorrow tza (snapshot (sbooks db)) u b env db = (BorrowUnavailable, db).
Proof.
  intros Hu Hb Hbk Havail.
  apply (handleBorrow_unavailable tza _ u b env db (b, bk)); try assumption.
  rewrite find_by_id_snapshot, Hbk. reflexivity.
Qed.

(** C8.  A borrow that succeeds lowers the counter of the book in the
    database by exactly one and writes one new transaction, open and with a
    zero fine, whose borrow date is the server's timestamp and whose due date
    is the client's date moved on by seven days of the calendar: exactly
    seven days after the client's clock reading when the handler's two
    readings of the clock agree. *)
Theorem C8_borrow_success tza books u b env db db' :
  handleBorrow tza books u b env db = (Borrowed, db') ->
  exists bk,
    sbooks db !! b = Some bk /\
    sbooks db'
    = <[b := set_availableCopies (availableCopies bk - 1) bk]> (sbooks db) /\
    stransactions db'
    = <[b_autoId env :=
          mkTxn b u (Some (b_server env))
                (Some (setDate tza (b_now2 env)
                               (getDate tza (b_now1 env) + 7)))
                None 0]> (stransactions db) /\
    susers db' = susers db /\
    (b_now1 env = b_now2 env ->
     setDate tza (b_now2 env) (getDate tza (b_now1 env) + 7)
     = b_now1 env + 7 * msPerDay).
Proof.
  intros H.
  destruct (handleBorrow_cases tza books u b env db)
    as [Hsame|(sel & bk & _ & _ & Hb & Heq)].
  - exfalso. rewrite H in Hsame. destruct Hsame as [Hne _]. apply Hne.
    reflexivity.
  - rewrite Heq in H. injection H as <-. exists bk. simpl.
    repeat split; try reflexivity; try exact Hb.
    intros <-. apply setDate_getDate_add.
Qed.

Lemma C8_borrow_success_witness :
  exists bk,
    sbooks db_B !! "B" = Some bk /\
    sbooks db_lent
    = <["B" := set_availableCopies (availableCopies bk - 1) bk]> (sbooks db_B) /\
    stransactions db_lent
    = <["T1" :=
          mkTxn "B" "U1" (Some (t_borrow + 250))
                (Some (setDate 0 t_borrow (getDate 0 t_borrow + 7)))
                None 0]> (stransactions db_B) /\
    susers db_lent = susers db_B /\
    (t_borrow = t_borrow ->
     setDate 0 t_borrow (getDate 0 t_borrow + 7) = t_borrow + 7 * msPerDay).
Proof.
  apply (C8_borrow_success 0 (snapshot (sbooks db_B)) "U1" "B" env_U1
           db_B db_lent).
  vm_compute. reflexivity.
Defined.

(** The stored borrow date is the server's, the due date is counted from
    the client's clock: they are not seven days apart. *)
Lemma C8_counterexample :
  let r := handleBorrow 0 (snapshot (sbooks db_B)) "U1" "B" env_U1 db_B in
  r.1 = Borrowed /\
  exists t borrowed due,
    stransactions r.2 !! "T1" = Some t /\
    borrowDate t = Some borrowed /\ dueDate t = Some due /\
    due <> borrowed + 7 * msPerDay.
Proof.
  split; [vm_compute; reflexivity|].
  exists txn_T1.2, (t_borrow + 250), (t_borrow + 7 * msPerDay).
  repeat split; try (vm_compute; reflexivity).
  vm_compute. discriminate.
Qed.

(** ** Return *)

(** C3.  The return button pressed twice on the same row of the view: the
    row still shows the transaction as open the second time, so the second
    return is committed as well; the counter of the book is raised twice and
    the recorded fine is replaced. *)
Theorem C3_return_twice_on_stale_row :
  let r1 := handleReturn txn_T1 env_day9 db_lent in
  let r2 := handleReturn txn_T1 env_day10 r1.2 in
  r1.1 = Returned 1.00%Q /\
  availableCopies <$> sbooks r1.2 !! "B" = Some 1 /\
  fineAmount <$> stransactions r1.2 !! "T1" = Some 1.00%Q /\
  r2.1 = Returned 1.50%Q /\
  availableCopies <$> sbooks r2.2 !! "B" = Some 2 /\
  totalCopies <$> sbooks r2.2 !! "B" = Some 1 /\
  fineAmount <$> stransactions r2.2 !! "T1" = Some 1.50%Q.
Proof. vm_compute. repeat split; reflexivity. Qed.

(** What the guard does achieve: on a row that shows the return, and on the
    row of a view refreshed after the first return, nothing happens. *)
Lemma handleReturn_refreshed tid env1 env2 db t bk :
  stransactions db !! tid = Some t ->
  returnDate t = None ->
  sbooks db !! bookId t = Some bk ->
  let db1 := (handleReturn (tid, t) env1 db).2 in
  exists t1,
    find_by_id tid (snapshot (stransactions db1)) = Some (tid, t1) /\
    handleReturn (tid, t1) env2 db1 = (ReturnAlreadyReturned, db1) /\
    availableCopies <$> sbooks db1 !! bookId t = Some (availableCopies bk + 1).
Proof.
  intros Ht Hopen Hb db1. unfold db1.
  rewrite (handleReturn_open (tid, t) env1 db bk t Hopen Hb Ht). simpl.
  eexists. rewrite find_by_id_snapshot. simpl.
  rewrite !lookup_insert_eq. simpl. split; [reflexivity|].
  split; reflexivity.
Qed.

(** C6.  The release of a copy during a return that goes through writes the
    counter of the book plus one, whatever the total of the book is; the
    return fails only when the book or the transaction is missing from the
    database. *)
Theorem C6_release_unguarded txn env db bk t :
  returnDate (doc_data txn) = None ->
  sbooks db !! bookId (doc_data txn) = Some bk ->
  stransactions db !! doc_id txn = Some t ->
  exists fine db',
    handleReturn txn env db = (Returned fine, db') /\
    sbooks db' !! bookId (doc_data txn)
    = Some (set_availableCopies (availableCopies bk + 1) bk).
Proof.
  intros Hopen Hb Ht.
  rewrite (handleReturn_open txn env db bk t Hopen Hb Ht).
  eexists _, _. split; [reflexivity|]. simpl. apply lookup_insert_eq.
Qed.

Lemma C6_release_unguarded_witness :
  exists fine db',
    handleReturn txn_T1 env_day9 db_full = (Returned fine, db') /\
    sbooks db' !! "B" = Some (set_availableCopies (1 + 1) book_B).
Proof.
  apply (C6_release_unguarded txn_T1 env_day9 db_full book_B txn_T1.2);
    vm_compute; reflexivity.
Defined.

(** Book B shows its only copy as available; releasing one more would
    exceed the total, and the return writes 2 all the same. *)
Lemma C6_counterexample :
  let r := handleReturn txn_T1 env_day9 db_full in
  (exists bk, sbooks db_full !! "B" = Some bk /\
              availableCopies bk + 1 > totalCopies bk) /\
  r.1 = Returned 1.00%Q /\
  sbooks r.2 !! "B" = Some (mkBook "Dune" "Frank Herbert" "Chilton" "Fiction" 1 2).
Proof.
  split; [|split; vm_compute; reflexivity].
  exists book_B. split; [vm_compute; reflexivity|vm_compute; reflexivity].
Qed.

(** ** Sequences of borrows and returns *)

(** C2.  From a database that satisfies I1 and I2, every sequence of borrows
    and returns, each issued from a view that shows the database as it is,
    ends in a database that satisfies I1. *)
Theorem C2_I1_preserved tza ops db :
  I1 db -> I2 db -> I1 (run tza ops db).
Proof.
  intros H1 H2. apply I1_of_covered, covered_run, covered_of_I1_I2; assumption.
Qed.

Lemma C2_I1_preserved_witness :
  I1 (run 0 [OpBorrow "U1" "B" env_U1; OpBorrow "U2" "B" env_U2;
             OpReturn "T1" env_day9; OpReturn "T1" env_day10] db_B).
Proof.
  apply (C2_I1_preserved 0 _ db_B).
  - apply (bool_decide_unpack _). vm_compute. exact I.
  - apply (bool_decide_unpack _). vm_compute. exact I.
Defined.

(** I1 alone is not kept: book B shows its copy as available while the
    transaction of U1 is open, and the return of U1 raises the counter
    to 2 of 1. *)
Lemma C2_counterexample :
  I1 db_full /\ ~ I1 (run 0 [OpReturn "T1" env_day9] db_full).
Proof.
  split.
  - apply (bool_decide_unpack _). vm_compute. exact I.
  - intros H.
    specialize (H "B" (mkBook "Dune" "Frank Herbert" "Chilton" "Fiction" 1 2)).
    simpl in H. assert (0 <= 2 <= 1) as [_ Hle]; [|lia].
    apply H. vm_compute. reflexivity.
Qed.

(** ** Sorting *)

Section Sorting.
Context {A : Type} (cmp : A -> A -> Z).

Lemma sort_insert_perm x l : sort_insert cmp x l ≡ₚ x :: l.
Proof.
  induction l as [|y l IH]; simpl; [reflexivity|].
  destruct (cmp x y <=? 0); [reflexivity|].
  rewrite IH. apply Permutation_swap.
Qed.

Lemma js_sort_perm l : js_sort cmp l ≡ₚ l.
Proof.
  induction l as [|x l IH]; simpl; [reflexivity|].
  rewrite sort_insert_perm, IH. reflexivity.
Qed.

(** The comparator orders any two elements one way or the other. *)
Hypothesis cmp_total : forall x y, 0 < cmp x y -> cmp y x <= 0.

Lemma sort_insert_HdRel a x l :
  cmp a x <= 0 -> HdRel (fun a b => cmp a b <= 0) a l ->
  HdRel (fun a b => cmp a b <= 0) a (sort_insert cmp x l).
Proof.
  intros Hax Hl. destruct l as [|y l]; simpl.
  - constructor. exact Hax.
  - destruct (cmp x y <=? 0); constructor; [exact Hax|].
    inversion Hl; assumption.
Qed.

Lemma sort_insert_Sorted x l :
  Sorted (fun a b => cmp a b <= 0) l ->
  Sorted (fun a b => cmp a b <= 0) (sort_insert cmp x l).
Proof.
  induction l as [|y l IH]; intros Hs; simpl.
  - repeat constructor.
  - destruct (Z.leb_spec (cmp x y) 0) as [Hle|Hgt].
    + constructor; [exact Hs|]. constructor. exact Hle.
    + inversion Hs as [|? ? Hs' Hhd]; subst.
      constructor; [apply IH; exact Hs'|].
      apply sort_insert_HdRel; [|exact Hhd].
      apply cmp_total. exact Hgt.
Qed.

Lemma js_sort_Sorted l : Sorted (fun a b => cmp a b <= 0) (js_sort cmp l).
Proof.
  induction l as [|x l IH]; simpl; [constructor|].
  apply sort_insert_Sorted. exact IH.
Qed.
End Sorting.

(** Sorting the images of a list under a map that respects the comparator. *)
Lemma js_sort_fmap {A B} (f : A -> B) (cmp : A -> A -> Z)
    (cmp' : B -> B -> Z) (l : list A) :
  (forall x y, cmp' (f x) (f y) = cmp x y) ->
  js_sort cmp' (f <$> l) = f <$> js_sort cmp l.
Proof.
  intros Hcmp.
  assert (Hins : forall x l, sort_insert cmp' (f x) (f <$> l)
                             = f <$> sort_insert cmp x l).
  { intros x l0. induction l0 as [|y l0 IH]; [reflexivity|].
    rewrite fmap_cons. cbn [sort_insert]. rewrite Hcmp.
    destruct (cmp x y <=? 0); [reflexivity|].
    rewrite fmap_cons, IH. reflexivity. }
  induction l as [|x l IH]; [reflexivity|].
  rewrite fmap_cons. cbn [js_sort foldr].
  change (foldr (sort_insert cmp') [] (f <$> l)) with (js_sort cmp' (f <$> l)).
  change (foldr (sort_insert cmp) [] l) with (js_sort cmp l).
  rewrite IH. apply Hins.
Qed.

Lemma filter_fmap_ext {A B} (f : A -> B) (p : A -> bool) (p' : B -> bool)
    (l : list A) :
  (forall x, p' (f x) = p x) ->
  List.filter p' (f <$> l) = f <$> List.filter p l.
Proof.
  intros Hp. induction l as [|x l IH]; [reflexivity|].
  rewrite fmap_cons. cbn [List.filter]. rewrite Hp, IH.
  destruct (p x); reflexivity.
Qed.

Lemma filter_split_perm {A} (p : A -> bool) (l : list A) :
  (List.filter p l ++ List.filter (fun x => negb (p x)) l) ≡ₚ l.
Proof.
  induction l as [|x l IH]; [reflexivity|].
  cbn [List.filter]. destruct (p x); cbn [negb].
  - rewrite <- app_comm_cons, IH. reflexivity.
  - rewrite <- Permutation_middle, IH. reflexivity.
Qed.

(** [Object.entries] lists every own property once. *)
Lemma Object_entries_perm {V} (o : JSObject V) : Object_entries o ≡ₚ o.
Proof.
  unfold Object_entries. rewrite js_sort_perm. apply filter_split_perm.
Qed.

(** ** Defaulter classifier *)

Section Defaulters.
Implicit Types (transactions : list (Doc Txn)) (users : list (Doc User))
  (store : gmap string User) (counts : gmap string nat) (uid : string).

Lemma userLateCounts_fold uid transactions counts :
  default 0%nat (foldl userLateCounts_count counts transactions !! uid)
  = (default 0%nat (counts !! uid)
     + length (List.filter (fined uid) transactions))%nat.
Proof.
  revert counts. induction transactions as [|t ts IH]; intros counts; simpl.
  - lia.
  - rewrite IH. unfold userLateCounts_count, fined.
    destruct (js_gt0 (fineAmount (doc_data t))); simpl.
    + destruct (decide (userId (doc_data t) = uid)) as [->|Hne].
      * rewrite lookup_insert_eq, bool_decide_eq_true_2 by reflexivity.
        simpl. lia.
      * rewrite lookup_insert_ne by exact Hne.
        rewrite bool_decide_eq_false_2 by exact Hne. reflexivity.
    + rewrite andb_false_r. reflexivity.
Qed.


Lemma userLateCounts_spec uid transactions :
  default 0%nat (userLateCounts transactions !! uid)
  = length (List.filter (fined uid) transactions).
Proof.
  unfold userLateCounts. rewrite userLateCounts_fold, lookup_empty.
  reflexivity.
Qed.

Lemma is_regular_defaulter_spec uid transactions :
  is_regular_defaulter (userLateCounts transactions) uid
  = (2 <=? length (List.filter (fined uid) transactions))%nat.
Proof.
  rewrite <- userLateCounts_spec. unfold is_regular_defaulter.
  destruct (userLateCounts transactions !! uid); reflexivity.
Qed.

(** On a log in which only closed transactions carry a fine, the fined
    transactions of a user are the closed fined ones. *)
Lemma fined_late_closed uid transactions :
  fined_closed transactions ->
  length (List.filter (fined uid) transactions) = lateCount uid transactions.
Proof.
  unfold lateCount, fined_closed. intros H. f_equal.
  induction H as [|t ts Ht _ IH]; simpl; [reflexivity|].
  rewrite IH.
  assert (Heq : fined uid t = late_closed uid t); [|rewrite Heq; reflexivity].
  unfold fined, late_closed.
  destruct (bool_decide (userId (doc_data t) = uid)); simpl; [|reflexivity].
  destruct (js_gt0 (fineAmount (doc_data t))) eqn:Hgt;
    [|rewrite andb_false_r; reflexivity].
  rewrite bool_decide_eq_true_2; [reflexivity|].
  apply Ht. unfold js_gt0 in Hgt. apply negb_true_iff in Hgt.
  apply Qnot_le_lt. intros Hle. apply Qle_bool_iff in Hle. congruence.
Qed.

Lemma set_isDefaulter_same (u : User) : set_isDefaulter (isDefaulter u) u = u.
Proof. destruct u; reflexivity. Qed.

(** The loop of [updateDefaulterStatus] over the users of the view. *)
Lemma updateDefaulterStatus_fold (flag : string -> bool) users :
  NoDup users.*1 ->
  forall store,
    (forall d, d ∈ users -> store !! doc_id d = Some (doc_data d)) ->
    forall uid,
      foldl (fun store user =>
               if negb (Bool.eqb (isDefaulter (doc_data user))
                                 (flag (doc_id user)))
               then updateDoc_caught (doc_id user)
                      (set_isDefaulter (flag (doc_id user))) store
               else store) store users !! uid
      = if decide (uid ∈ users.*1)
        then set_isDefaulter (flag uid) <$> store !! uid
        else store !! uid.
Proof.
  induction users as [|[id u] users IH]; intros Hnd store Hstore uid.
  - reflexivity.
  - rewrite fmap_cons in Hnd. apply NoDup_cons in Hnd as [Hid Hnd].
    change ((id, u).1) with id in Hid.
    assert (Hu : store !! id = Some u)
      by (apply (Hstore (id, u)); left).
    cbn [foldl]. rewrite fmap_cons. unfold doc_id at 1 2, doc_data at 1.
    cbn [fst snd].
    set (store1 :=
           if negb (Bool.eqb (isDefaulter u) (flag id))
           then updateDoc_caught id (set_isDefaulter (flag id)) store
           else store).
    assert (Hs1 : store1 = <[id := set_isDefaulter (flag id) u]> store).
    { unfold store1.
      destruct (Bool.eqb (isDefaulter u) (flag id)) eqn:He; simpl.
      - apply Bool.eqb_prop in He. rewrite <- He, set_isDefaulter_same.
        symmetry. apply insert_id. exact Hu.
      - unfold updateDoc_caught. rewrite (t_update_Some _ _ _ _ Hu).
        reflexivity. }
    rewrite (IH Hnd store1).
    2:{ intros [id' u'] Hin. rewrite Hs1. unfold doc_id, doc_data.
        cbn [fst snd]. rewrite lookup_insert_ne.
        - apply (Hstore (id', u')). right. exact Hin.
        - intros ->. apply Hid.
          apply (list_elem_of_fmap_2 fst) in Hin. exact Hin. }
    rewrite Hs1.
    destruct (decide (uid = id)) as [->|Hne].
    + rewrite lookup_insert_eq, Hu.
      rewrite (decide_False (P := id ∈ users.*1)) by exact Hid.
      rewrite (decide_True (P := id ∈ id :: users.*1)) by left.
      reflexivity.
    + rewrite lookup_insert_ne by congruence.
      destruct (decide (uid ∈ users.*1)) as [Hin|Hnin].
      * rewrite (decide_True (P := uid ∈ id :: users.*1)) by (right; exact Hin).
        reflexivity.
      * rewrite (decide_False (P := uid ∈ id :: users.*1)); [reflexivity|].
        intros Hin'. apply elem_of_cons in Hin' as [?|?]; contradiction.
Qed.

End Defaulters.

Section DefaulterEffect.
Implicit Types (transactions : list (Doc Txn)) (users : list (Doc User))
  (store : gmap string User) (counts : gmap string nat) (uid : string).

(** The ids of the report are the ids of the users of the view whose
    count reaches the threshold. *)
Lemma defaulterIds_spec users counts uid :
  uid ∈ (list_to_set (map (fun r : Doc User * nat => doc_id r.1)
                          (defaultersReport users counts)) : gset string)
  <-> exists u, (uid, u) ∈ users /\ is_regular_defaulter counts uid = true.
Proof.
  rewrite elem_of_list_to_set, list_elem_of_In, in_map_iff.
  unfold defaultersReport. split.
  - intros ([[id u] n] & Hid & Hin). simpl in Hid. subst id.
    apply list_elem_of_In in Hin. rewrite js_sort_perm in Hin.
    apply list_elem_of_In, in_map_iff in Hin as ([id' u'] & Heq & Hin).
    injection Heq as -> -> _.
    apply List.filter_In in Hin as [Hin Hreg].
    exists u. split; [apply list_elem_of_In; exact Hin|exact Hreg].
  - intros (u & Hin & Hreg).
    exists ((uid, u), default 0%nat (counts !! uid)). split; [reflexivity|].
    apply list_elem_of_In. rewrite js_sort_perm.
    apply list_elem_of_In, in_map_iff. exists (uid, u). split; [reflexivity|].
    apply List.filter_In. split; [apply list_elem_of_In; exact Hin|exact Hreg].
Qed.

(** The effect, run on a view that shows the users of the database, leaves
    every user with the flag the counts call for. *)
Lemma defaulter_effect_lookup transactions store uid :
  defaulter_effect (snapshot store) transactions store !! uid
  = set_isDefaulter
      (is_regular_defaulter (userLateCounts transactions) uid)
    <$> store !! uid.
Proof.
  unfold defaulter_effect.
  set (counts := userLateCounts transactions).
  set (report := defaultersReport (snapshot store) counts).
  pose proof (defaulterIds_spec (snapshot store) counts) as Hids.
  fold report in Hids.
  set (ids := (list_to_set (map (fun r : Doc User * nat => doc_id r.1)
                                report) : gset string)) in Hids.
  assert (Hflag : forall u, store !! uid = Some u ->
                    bool_decide (uid ∈ ids) = is_regular_defaulter counts uid).
  { intros u Hu. destruct (is_regular_defaulter counts uid) eqn:Hreg.
    - apply bool_decide_eq_true_2, Hids. exists u.
      split; [apply elem_of_map_to_list; exact Hu|exact Hreg].
    - apply bool_decide_eq_false_2. intros (u' & _ & Hreg')%Hids.
      congruence. }
  destruct ((0 <? length report)%nat
            || existsb (fun u => isDefaulter (doc_data u)) (snapshot store))
    eqn:Hguard.
  - pose proof (updateDefaulterStatus_fold
                  (fun id => bool_decide (id ∈ ids)) (snapshot store)
                  (NoDup_fst_map_to_list store) store) as Hfold.
    unfold updateDefaulterStatus. fold ids. cbv zeta.
    rewrite Hfold.
    2:{ intros [id u] Hin. apply elem_of_map_to_list in Hin. exact Hin. }
    destruct (store !! uid) as [u|] eqn:Hu.
    + rewrite decide_True.
      * simpl. rewrite (Hflag u eq_refl). reflexivity.
      * apply list_elem_of_fmap. exists (uid, u).
        split; [reflexivity|apply elem_of_map_to_list; exact Hu].
    + destruct (decide _); reflexivity.
  - apply orb_false_iff in Hguard as [Hlen Hnone].
    destruct (store !! uid) as [u|] eqn:Hu; [|reflexivity].
    simpl. f_equal.
    assert (Hreg : is_regular_defaulter counts uid = false).
    { rewrite <- (Hflag u eq_refl). apply bool_decide_eq_false_2.
      unfold ids. destruct report; [|discriminate]. simpl.
      apply not_elem_of_empty. }
    assert (Hdef : isDefaulter u = false).
    { destruct (isDefaulter u) eqn:Hd; [|reflexivity].
      rewrite <- Hnone. symmetry. apply existsb_exists.
      exists (uid, u). split; [|exact Hd].
      apply list_elem_of_In, elem_of_map_to_list. exact Hu. }
    rewrite Hreg, <- Hdef. symmetry. apply set_isDefaulter_same.
Qed.

Lemma recompute_defaulters_lookup transactions db uid :
  fined_closed transactions ->
  susers (recompute_defaulters transactions db) !! uid
  = set_isDefaulter (2 <=? lateCount uid transactions)%nat
    <$> susers db !! uid.
Proof.
  intros Hfc. unfold recompute_defaulters. simpl.
  rewrite defaulter_effect_lookup, is_regular_defaulter_spec.
  rewrite (fined_late_closed uid transactions Hfc). reflexivity.
Qed.

End DefaulterEffect.




(** Two late returns flag the user; once one of the fines is corrected, the
    next recomputation takes the flag away. *)
Example defaulter_convergence :
  let db2 := recompute_defaulters log_two_late db_users in
  let db1 := recompute_defaulters log_one_late db2 in
  isDefaulter <$> susers db2 !! "U1" = Some true /\
  isDefaulter <$> susers db2 !! "U2" = Some false /\
  isDefaulter <$> susers db1 !! "U1" = Some false.
Proof. vm_compute. repeat split; reflexivity. Qed.

(** ** Objects used as counters *)

Section Counters.
Implicit Types (o : JSObject nat) (k : string) (ks : list string).


Lemma obj_incr_cons k k0 v o :
  obj_incr k ((k0, v) :: o)
  = if bool_decide (k0 = k) then (k0, S v) :: o
    else (k0, v) :: obj_incr k o.
Proof. reflexivity. Qed.



(** An object lists a key with the value that reading the key gives. *)
Lemma obj_get_elem_of {V} (o : JSObject V) k (v : V) :
  NoDup o.*1 -> (k, v) ∈ o <-> obj_get k o = Some v.
Proof.
  induction o as [|[k0 v0] o IH]; intros Hnd; simpl.
  - split; [intros H; apply elem_of_nil in H; contradiction|discriminate].
  - rewrite fmap_cons in Hnd. apply NoDup_cons in Hnd as [Hk0 Hnd].
    change ((k0, v0).1) with k0 in Hk0.
    destruct (decide (k0 = k)) as [->|Hne].
    + rewrite bool_decide_eq_true_2 by reflexivity. split.
      * intros [Heq|Hin]%elem_of_cons; [congruence|].
        exfalso. apply Hk0. apply (list_elem_of_fmap_2 fst) in Hin. exact Hin.
      * intros [= ->]. left.
    + rewrite (bool_decide_eq_false_2 _ Hne). rewrite <- (IH Hnd). split.
      * intros [Heq|Hin]%elem_of_cons; [congruence|exact Hin].
      * intros Hin. right. exact Hin.
Qed.


End Counters.

(** ** Plain objects under keys that are not inherited names *)

Section OrdinaryKeys.
Variable source_text : string -> string.
Implicit Types (o : JSObject nat) (k : string) (ks : list string).

Lemma inherited_proto k : inherited k = false -> k <> "__proto__".
Proof. intros H ->. vm_compute in H. discriminate H. Qed.

(** Under such a key the counter holds a number and is incremented. *)
Lemma counter_incr_numeric k o :
  inherited k = false ->
  counter_incr source_text k (numeric o) = numeric (obj_incr k o).
Proof.
  intros Hk. unfold counter_incr.
  rewrite bool_decide_eq_false_2 by (apply inherited_proto; exact Hk).
  unfold numeric, obj_incr.
  induction o as [|[k0 v] o IH].
  - cbn [obj_set fmap list_fmap plus_one]. rewrite Hk. reflexivity.
  - rewrite fmap_cons. cbn [obj_set prod_map fst snd id].
    destruct (bool_decide (k0 = k)).
    + rewrite fmap_cons. reflexivity.
    + rewrite fmap_cons, IH. reflexivity.
Qed.

Lemma counter_count_numeric ks o :
  Forall (fun k => inherited k = false) ks ->
  foldl (fun c k => counter_incr source_text k c) (numeric o) ks
  = numeric (count_keys o ks).
Proof.
  intros H. revert o. induction H as [|k ks Hk _ IH]; intros o.
  - reflexivity.
  - unfold count_keys. cbn [foldl].
    rewrite (counter_incr_numeric k o Hk). apply IH.
Qed.

Lemma Object_entries_numeric o :
  Object_entries (numeric o) = numeric (Object_entries o).
Proof.
  unfold Object_entries, numeric. rewrite fmap_app. f_equal.
  - rewrite (filter_fmap_ext (prod_map id Num) is_index is_index)
      by (intros [k v]; reflexivity).
    apply js_sort_fmap. intros [k v] [k' v']. reflexivity.
  - apply filter_fmap_ext. intros [k v]. reflexivity.
Qed.

(** The rows of a counter of numbers. *)
Lemma formatReport_numeric o :
  formatReport (numeric o) = numeric (sorted_counts o).
Proof.
  unfold formatReport, sorted_counts. rewrite Object_entries_numeric.
  apply js_sort_fmap. intros [k v] [k' v']. reflexivity.
Qed.



Lemma numeric_descending (l : list (string * nat)) :
  Sorted (fun a b : string * nat => (b.2 <= a.2)%nat) l ->
  Sorted descending (numeric l).
Proof.
  unfold numeric.
  induction 1 as [|[k n] l Hs IH Hhd]; [constructor|].
  rewrite fmap_cons. constructor; [exact IH|].
  destruct Hhd as [|[k' n'] l' Hle]; [constructor|].
  rewrite fmap_cons. constructor. exact Hle.
Qed.

Lemma total_count_numeric (l : list (string * nat)) :
  total_count (numeric l) = Some (sum_list_with snd l).
Proof.
  unfold total_count, numeric.
  induction l as [|[k n] l IH]; [reflexivity|].
  rewrite fmap_cons. cbn [foldr]. rewrite IH. reflexivity.
Qed.

End OrdinaryKeys.


Lemma Sorted_weaken {A} (R S : A -> A -> Prop) (l : list A) :
  (forall x y, R x y -> S x y) -> Sorted R l -> Sorted S l.
Proof.
  intros HRS. induction 1 as [|x l Hs IH Hhd]; constructor; [exact IH|].
  destruct Hhd; constructor. apply HRS. assumption.
Qed.

(** ** Reports *)

Section ReportProperties.
Variable tza : Z.
Variable source_text : string -> string.
Implicit Types (books : list (Doc Book)) (users : list (Doc User))
  (transactions : list (Doc Txn)) (k : string) (n : nat).

(** When no book of the view has an inherited name for its author,
    publisher or category, the three counters of report V hold the counts
    of the authors, publishers and categories of the books the transactions
    refer to. *)
Lemma bookReports_count_fold books transactions (a p c : JSObject nat) :
  ordinary_keys books ->
  foldl (bookReports_count source_text books)
        (mkBookCounts (numeric a) (numeric p) (numeric c)) transactions
  = mkBookCounts
      (numeric (count_keys a (omap (dimension_of author books) transactions)))
      (numeric (count_keys p
                  (omap (dimension_of publisher books) transactions)))
      (numeric (count_keys c
                  (omap (dimension_of category books) transactions))).
Proof.
  intros Hkeys. unfold count_keys.
  revert a p c. induction transactions as [|t ts IH]; intros a p c.
  - reflexivity.
  - cbn [foldl omap list_omap].
    assert (Hd : forall dim,
               dimension_of dim books t
               = (fun b => dim (doc_data b))
                 <$> find_by_id (bookId (doc_data t)) books) by reflexivity.
    rewrite !Hd. unfold bookReports_count at 2.
    destruct (find_by_id (bookId (doc_data t)) books) as [book|] eqn:Hf;
      cbn [fmap option_fmap option_map c_author c_publisher c_category].
    + apply find_by_id_Some in Hf as [_ Hin].
      destruct (proj1 (Forall_forall _ _) Hkeys book Hin) as (Ha & Hp & Hc).
      rewrite !counter_incr_numeric by assumption.
      rewrite IH. reflexivity.
    + apply IH.
Qed.

Lemma bookReports_numeric books transactions :
  ordinary_keys books ->
  bookReports source_text books transactions
  = mkBookCounts
      (numeric (sorted_counts
         (count_keys [] (omap (dimension_of author books) transactions))))
      (numeric (sorted_counts
         (count_keys [] (omap (dimension_of publisher books) transactions))))
      (numeric (sorted_counts
         (count_keys [] (omap (dimension_of category books) transactions)))).
Proof.
  intros Hkeys. unfold bookReports.
  change (mkBookCounts [] [] [])
    with (mkBookCounts (numeric []) (numeric []) (numeric [])).
  rewrite (bookReports_count_fold books transactions [] [] [] Hkeys).
  cbn [c_author c_publisher c_category].
  rewrite !formatReport_numeric. reflexivity.
Qed.


Lemma sorted_counts_perm (o : JSObject nat) : sorted_counts o ≡ₚ o.
Proof.
  unfold sorted_counts. rewrite js_sort_perm. apply Object_entries_perm.
Qed.

Lemma sorted_counts_sorted (o : JSObject nat) :
  Sorted (fun a b : string * nat => (b.2 <= a.2)%nat) (sorted_counts o).
Proof.
  apply (Sorted_weaken
           (fun a b : string * nat => Z.of_nat b.2 - Z.of_nat a.2 <= 0)).
  - intros x y H. lia.
  - apply (js_sort_Sorted
             (fun a b : string * nat => Z.of_nat b.2 - Z.of_nat a.2)).
    intros x y H. lia.
Qed.










End ReportProperties.




(** The reports of the log with the two dangling transactions. *)
Example reports_dangling :
  bookReports v8_source_text (snapshot (sbooks db_B)) log_dangling
  = mkBookCounts [("Frank Herbert", Num 3)] [("Chilton", Num 3)]
                 [("Fiction", Num 3)] /\
  monthlyUsageReport 0 (snapshot (susers db_users)) log_dangling
  = Some [("2024-01", mkUsage 2 1 3)] /\
  map (fun r => (doc_id r.1, r.2))
      (defaultersReport (snapshot (susers db_users))
                        (userLateCounts log_dangling))
  = [("U1", 2%nat)].
Proof. vm_compute. repeat split; reflexivity. Qed.

(** ** The scenario of the specification, from views that are up to date *)

Example scenario_one_copy :
  let db1 := step 0 db_B (OpBorrow "U1" "B" env_U1) in
  let r2 := handleBorrow 0 (snapshot (sbooks db1)) "U2" "B" env_U2 db1 in
  let db3 := step 0 r2.2 (OpReturn "T1" env_day9) in
  availableCopies <$> sbooks db1 !! "B" = Some 0 /\
  r2 = (BorrowUnavailable, db1) /\
  availableCopies <$> sbooks db3 !! "B" = Some 1 /\
  fineAmount <$> stransactions db3 !! "T1" = Some 1.00%Q /\
  returnDate <$> stransactions db3 !! "T1"
  = Some (Some (t_borrow + 9 * msPerDay + 200)).
Proof. vm_compute. repeat split; reflexivity. Qed.

(** * Further properties of the code *)

(** ** The calendar behind the dates *)

(** The conversion of a day number to a date of the calendar and back. *)
Lemma civil_round_trip (z : Z) :
  days_from_civil (civil_from_days z).1.1 (civil_from_days z).1.2
                  (civil_from_days z).2 = z /\
  1 <= (civil_from_days z).1.2 <= 12 /\
  1 <= (civil_from_days z).2 <= 31.
Proof.
  unfold civil_from_days. cbn [fst snd].
  set (z' := z + 719468).
  set (era := z' / 146097).
  set (doe := z' - era * 146097).
  assert (Hdoe : 0 <= doe <= 146096).
  { unfold doe, era. pose proof (Z.div_mod z' 146097).
    pose proof (Z.mod_pos_bound z' 146097). lia. }
  assert (Hz : z = era * 146097 + doe - 719468) by (unfold doe, z'; lia).
  clearbody doe era. clear z'. subst z.
  set (yoe := (doe - doe / 1460 + doe / 36524 - doe / 146096) / 365).
  assert (Hyoe : 0 <= yoe <= 399)
    by (unfold yoe; Z.div_mod_to_equations; lia).
  set (doy := doe - (365 * yoe + yoe / 4 - yoe / 100)).
  assert (Hdoy : 0 <= doy <= 365)
    by (unfold doy, yoe; Z.div_mod_to_equations; lia).
  assert (Hdoe' : doe = yoe * 365 + yoe / 4 - yoe / 100 + doy)
    by (unfold doy; lia).
  clearbody doy yoe.
  set (mp := (5 * doy + 2) / 153).
  assert (Hmp : 0 <= mp <= 11) by (unfold mp; Z.div_mod_to_equations; lia).
  assert (Hd : 1 <= doy - (153 * mp + 2) / 5 + 1 <= 31)
    by (unfold mp; Z.div_mod_to_equations; lia).
  set (d := doy - (153 * mp + 2) / 5 + 1) in *.
  assert (Hdoy' : doy = (153 * mp + 2) / 5 + d - 1) by (unfold d; lia).
  clearbody d mp.
  assert (Hera : (yoe + era * 400) / 400 = era)
    by (Z.div_mod_to_equations; lia).
  unfold days_from_civil.
  destruct (Z.ltb_spec mp 10).
  - set (m := mp + 3).
    destruct (Z.leb_spec m 2); [unfold m in *; lia|].
    destruct (Z.gtb_spec m 2); [|unfold m in *; lia].
    replace (m - 3) with mp by (unfold m; lia).
    rewrite Hera.
    replace (yoe + era * 400 - era * 400) with yoe by lia.
    unfold m. lia.
  - set (m := mp - 9).
    destruct (Z.leb_spec m 2); [|unfold m in *; lia].
    destruct (Z.gtb_spec m 2); [unfold m in *; lia|].
    replace (m + 9) with mp by (unfold m; lia).
    replace (yoe + era * 400 + 1 - 1) with (yoe + era * 400) by lia.
    rewrite Hera.
    replace (yoe + era * 400 - era * 400) with yoe by lia.
    unfold m. lia.
Qed.

Lemma days_from_civil_day (y m d : Z) :
  days_from_civil y m d = days_from_civil y m 1 + d - 1.
Proof. unfold days_from_civil. cbv zeta. lia. Qed.

(** The first of a month, then the day of the month, is the day. *)
Lemma DateFromTime_civil (t : Z) :
  DateFromTime t = (civil_from_days (Day t)).2 /\ 1 <= DateFromTime t <= 31.
Proof.
  destruct (civil_round_trip (Day t)) as (Hrt & Hm & Hd).
  assert (Heq : DateFromTime t = (civil_from_days (Day t)).2); [|lia].
  unfold DateFromTime, MakeDay, YearFromTime, MonthFromTime.
  replace ((civil_from_days (Day t)).1.2 - 1 + 1)
    with ((civil_from_days (Day t)).1.2) by lia.
  rewrite days_from_civil_day in Hrt. lia.
Qed.

Lemma MonthFromTime_range (t : Z) : 0 <= MonthFromTime t <= 11.
Proof.
  destruct (civil_round_trip (Day t)) as (_ & Hm & _).
  unfold MonthFromTime. lia.
Qed.

(** ** Borrow and return, beyond the claims *)

(** X1.  The due date of a borrow is the handler's second reading of the
    clock moved by 7 days plus the difference between the days of the month
    of the two readings: exactly 7 days later when both readings fall on the
    same day, and in every case between 23 days before and 37 days after the
    second reading. *)
Theorem X1_dueDate_formula (tza : Z) (env : BorrowEnv) :
  borrow_dueDate tza env
  = b_now2 env
    + (BORROW_DAYS + getDate tza (b_now1 env) - getDate tza (b_now2 env))
      * msPerDay /\
  b_now2 env - 23 * msPerDay <= borrow_dueDate tza env
  <= b_now2 env + 37 * msPerDay.
Proof.
  assert (Heq : borrow_dueDate tza env
                = b_now2 env
                  + (BORROW_DAYS + getDate tza (b_now1 env)
                     - getDate tza (b_now2 env)) * msPerDay).
  { unfold borrow_dueDate, setDate, MakeDate, UTC, TimeWithinDay.
    set (d1 := getDate tza (b_now1 env)).
    unfold getDate, DateFromTime, MakeDay, Day, LocalTime.
    set (lt := b_now2 env + tza).
    set (first := days_from_civil _ _ 1).
    assert (Hd : msPerDay <> 0) by discriminate.
    pose proof (Z.div_mod lt msPerDay Hd) as Hdm.
    unfold lt in *. lia. }
  split; [exact Heq|]. rewrite Heq.
  destruct (DateFromTime_civil (LocalTime tza (b_now1 env))) as [_ H1].
  destruct (DateFromTime_civil (LocalTime tza (b_now2 env))) as [_ H2].
  unfold getDate, BORROW_DAYS, msPerDay. lia.
Qed.

Section BorrowThenReturn.
Variable tza : Z.

Lemma step_borrow_synced u b env db bk :
  u <> "" -> b <> "" ->
  sbooks db !! b = Some bk -> 1 <= availableCopies bk ->
  step tza db (OpBorrow u b env)
  = mkStore
      (<[b := set_availableCopies (availableCopies bk - 1) bk]> (sbooks db))
      (susers db)
      (<[b_autoId env := new_txn tza u b env]> (stransactions db)).
Proof.
  intros Hu Hb Hbk Havail. cbn [step].
  rewrite (handleBorrow_decided_on_view tza (snapshot (sbooks db)) u b env db
             (b, bk) bk Hu Hb); try assumption; [reflexivity|].
  rewrite find_by_id_snapshot, Hbk. reflexivity.
Qed.

Lemma borrow_return_synced u b envB envR db bk :
  u <> "" -> b <> "" ->
  sbooks db !! b = Some bk -> 1 <= availableCopies bk ->
  let fine := calculateFine (Some (borrow_dueDate tza envB))
                            (Some (r_now envR)) in
  handleReturn (b_autoId envB, new_txn tza u b envB) envR
               (step tza db (OpBorrow u b envB))
  = (Returned fine,
     mkStore (sbooks db) (susers db)
       (<[b_autoId envB :=
            mkTxn b u (Some (b_server envB)) (Some (borrow_dueDate tza envB))
                  (Some (r_server envR)) fine]> (stransactions db))).
Proof.
  intros Hu Hb Hbk Havail fine.
  rewrite (step_borrow_synced u b envB db bk Hu Hb Hbk Havail).
  rewrite (handleReturn_open (b_autoId envB, new_txn tza u b envB) envR _
             (set_availableCopies (availableCopies bk - 1) bk)
             (new_txn tza u b envB)); try reflexivity.
  - cbn [doc_data doc_id fst snd sbooks susers stransactions].
    unfold new_txn at 1. cbn [bookId dueDate]. fold fine. f_equal.
    f_equal.
    + rewrite insert_insert_eq.
      replace (set_availableCopies _ (set_availableCopies _ bk)) with bk.
      * apply insert_id. exact Hbk.
      * destruct bk. unfold set_availableCopies. simpl. f_equal. lia.
    + rewrite insert_insert_eq. reflexivity.
  - simpl. apply lookup_insert_eq.
  - simpl. apply lookup_insert_eq.
Qed.

End BorrowThenReturn.

(** X2.  A borrow followed by the return of the transaction it created,
    both from views that show the database, leaves every book as it was: the
    counter is back, and the only trace is the transaction, closed, with the
    fine of the return. *)
Theorem X2_borrow_then_return tza u b envB envR db bk :
  u <> "" -> b <> "" ->
  sbooks db !! b = Some bk -> 1 <= availableCopies bk ->
  let db2 := run tza [OpBorrow u b envB; OpReturn (b_autoId envB) envR] db in
  sbooks db2 = sbooks db /\ susers db2 = susers db /\
  stransactions db2
  = <[b_autoId envB :=
        mkTxn b u (Some (b_server envB)) (Some (borrow_dueDate tza envB))
              (Some (r_server envR))
              (calculateFine (Some (borrow_dueDate tza envB))
                             (Some (r_now envR)))]> (stransactions db).
Proof.
  intros Hu Hb Hbk Havail db2. unfold db2. cbn [run foldl].
  assert (Hrow : find_by_id (b_autoId envB)
                   (snapshot (stransactions (step tza db (OpBorrow u b envB))))
                 = Some (b_autoId envB,
                         mkTxn b u (Some (b_server envB))
                               (Some (borrow_dueDate tza envB)) None 0)).
  { rewrite find_by_id_snapshot.
    rewrite (step_borrow_synced tza u b envB db bk Hu Hb Hbk Havail).
    simpl. rewrite lookup_insert_eq. reflexivity. }
  cbn [step] in *. rewrite Hrow.
  pose proof (borrow_return_synced tza u b envB envR db bk Hu Hb Hbk Havail)
    as Hret.
  cbn [step] in Hret. cbv zeta in Hret. unfold new_txn in Hret. rewrite Hret.
  repeat split.
Qed.

Lemma X2_borrow_then_return_witness :
  let db2 := run 0 [OpBorrow "U1" "B" env_U1; OpReturn "T1" env_day9] db_B in
  sbooks db2 = sbooks db_B /\ susers db2 = susers db_B /\
  stransactions db2
  = <["T1" :=
        mkTxn "B" "U1" (Some (t_borrow + 250)) (Some (borrow_dueDate 0 env_U1))
              (Some (t_borrow + 9 * msPerDay + 200))
              (calculateFine (Some (borrow_dueDate 0 env_U1))
                             (Some (t_borrow + 9 * msPerDay)))]>
      (stransactions db_B).
Proof.
  apply (X2_borrow_then_return 0 "U1" "B" env_U1 env_day9 db_B book_B).
  - discriminate.
  - discriminate.
  - vm_compute. reflexivity.
  - vm_compute. discriminate.
Defined.

(** X3.  The fine of a loan in a time zone of fixed offset [tza] (no change
    of daylight saving between the borrow and its due date), when the borrow
    read the clock once ([b_now1] and [b_now2] agree): a return no later
    than 7 days after the borrow costs nothing, and a return during the
    (k+1)-th day after those 7 days costs k+1 halves. *)
Theorem X3_fine_of_a_loan tza u b envB envR db bk :
  u <> "" -> b <> "" ->
  sbooks db !! b = Some bk -> 1 <= availableCopies bk ->
  b_now1 envB = b_now2 envB ->
  let db1 := step tza db (OpBorrow u b envB) in
  let due := b_now1 envB + 7 * msPerDay in
  exists row,
    find_by_id (b_autoId envB) (snapshot (stransactions db1)) = Some row /\
    (r_now envR <= due -> (handleReturn row envR db1).1 = Returned 0) /\
    (forall k, 0 <= k ->
       due + k * msPerDay < r_now envR <= due + (k + 1) * msPerDay ->
       (handleReturn row envR db1).1 = Returned ((50 * (k + 1)) # 100)).
Proof.
  intros Hu Hb Hbk Havail Hnow db1 due.
  exists (b_autoId envB,
          mkTxn b u (Some (b_server envB)) (Some (borrow_dueDate tza envB))
                None 0).
  assert (Hdue : borrow_dueDate tza envB = due).
  { unfold borrow_dueDate, due. rewrite <- Hnow.
    apply setDate_getDate_add. }
  split.
  { unfold db1. rewrite find_by_id_snapshot.
    rewrite (step_borrow_synced tza u b envB db bk Hu Hb Hbk Havail).
    simpl. rewrite lookup_insert_eq. reflexivity. }
  pose proof (borrow_return_synced tza u b envB envR db bk Hu Hb Hbk Havail)
    as Hret.
  cbv zeta in Hret. unfold new_txn in Hret. fold db1 in Hret.
  rewrite Hret. cbn [fst].
  rewrite Hdue. split.
  - intros Hle. f_equal. apply calculateFine_on_time. exact Hle.
  - intros k Hk Hlate. f_equal.
    replace (r_now envR) with (due + (r_now envR - due)) by lia.
    apply calculateFine_late; [exact Hk|lia].
Qed.

Lemma X3_fine_of_a_loan_witness :
  exists row,
    find_by_id "T1" (snapshot (stransactions
                                 (step 0 db_B (OpBorrow "U1" "B" env_U1))))
    = Some row /\
    (r_now env_day9 <= t_borrow + 7 * msPerDay ->
     (handleReturn row env_day9 (step 0 db_B (OpBorrow "U1" "B" env_U1))).1
     = Returned 0) /\
    (forall k, 0 <= k ->
       t_borrow + 7 * msPerDay + k * msPerDay < r_now env_day9
       <= t_borrow + 7 * msPerDay + (k + 1) * msPerDay ->
       (handleReturn row env_day9 (step 0 db_B (OpBorrow "U1" "B" env_U1))).1
       = Returned ((50 * (k + 1)) # 100)).
Proof.
  apply (X3_fine_of_a_loan 0 "U1" "B" env_U1 env_day9 db_B book_B).
  - discriminate.
  - discriminate.
  - vm_compute. reflexivity.
  - vm_compute. discriminate.
  - reflexivity.
Defined.

(** A return either leaves the database as it is or commits the increment
    together with the closing of the transaction. *)
Lemma handleReturn_cases txn env db :
  ((forall fine, (handleReturn txn env db).1 <> Returned fine) /\
   (handleReturn txn env db).2 = db) \/
  exists bk t,
    returnDate (doc_data txn) = None /\
    sbooks db !! bookId (doc_data txn) = Some bk /\
    stransactions db !! doc_id txn = Some t /\
    handleReturn txn env db
    = (Returned (calculateFine (dueDate (doc_data txn)) (Some (r_now env))),
       mkStore
         (<[bookId (doc_data txn) :=
              set_availableCopies (availableCopies bk + 1) bk]> (sbooks db))
         (susers db)
         (<[doc_id txn :=
              close_txn (Some (r_server env))
                (calculateFine (dueDate (doc_data txn)) (Some (r_now env))) t]>
            (stransactions db))).
Proof.
  destruct (returnDate (doc_data txn)) as [d|] eqn:Hopen.
  { left. rewrite (handleReturn_closed txn env db d Hopen).
    split; [discriminate|reflexivity]. }
  destruct (sbooks db !! bookId (doc_data txn)) as [bk|] eqn:Hb.
  2:{ left. rewrite (handleReturn_failed txn env db Hopen (or_introl Hb)).
      split; [discriminate|reflexivity]. }
  destruct (stransactions db !! doc_id txn) as [t|] eqn:Ht.
  2:{ left. rewrite (handleReturn_failed txn env db Hopen (or_intror Ht)).
      split; [discriminate|reflexivity]. }
  right. exists bk, t. repeat split; try assumption.
  apply (handleReturn_open txn env db bk t Hopen Hb Ht).
Qed.

Lemma book_static_set n bk :
  book_static (set_availableCopies n bk) = book_static bk.
Proof. reflexivity. Qed.

(** X4.  What a borrow and a return never touch, whatever the views show:
    the users; the existence and the title, author, publisher, category and
    total of every book; every transaction other than the one they write.  A
    return, moreover, never adds or removes a transaction. *)
Theorem X4_handlers_frame tza books u b envB txn envR db :
  let dbB := (handleBorrow tza books u b envB db).2 in
  let dbR := (handleReturn txn envR db).2 in
  susers dbB = susers db /\ susers dbR = susers db /\
  (forall id, book_static <$> sbooks dbB !! id
              = book_static <$> sbooks db !! id) /\
  (forall id, book_static <$> sbooks dbR !! id
              = book_static <$> sbooks db !! id) /\
  (forall tid, tid <> b_autoId envB ->
               stransactions dbB !! tid = stransactions db !! tid) /\
  (forall tid, tid <> doc_id txn ->
               stransactions dbR !! tid = stransactions db !! tid) /\
  dom (stransactions dbR) = dom (stransactions db).
Proof.
  intros dbB dbR.
  assert (HB : dbB = db \/
               exists bk, sbooks db !! b = Some bk /\
                 dbB = mkStore
                         (<[b := set_availableCopies (availableCopies bk - 1)
                                   bk]> (sbooks db))
                         (susers db)
                         (<[b_autoId envB := new_txn tza u b envB]>
                            (stransactions db))).
  { unfold dbB.
    destruct (handleBorrow_cases tza books u b envB db)
      as [[_ ->]|(sel & bk & _ & _ & Hb & ->)]; [left; reflexivity|].
    right. exists bk. split; [exact Hb|reflexivity]. }
  assert (HR : dbR = db \/
               exists bk t fine,
                 sbooks db !! bookId (doc_data txn) = Some bk /\
                 stransactions db !! doc_id txn = Some t /\
                 dbR = mkStore
                         (<[bookId (doc_data txn) :=
                              set_availableCopies (availableCopies bk + 1) bk]>
                            (sbooks db))
                         (susers db)
                         (<[doc_id txn :=
                              close_txn (Some (r_server envR)) fine t]>
                            (stransactions db))).
  { unfold dbR.
    destruct (handleReturn_cases txn envR db)
      as [[_ ->]|(bk & t & _ & Hb & Ht & ->)]; [left; reflexivity|].
    right. eexists bk, t, _. split; [exact Hb|]. split; [exact Ht|].
    reflexivity. }
  clearbody dbB dbR.
  assert (HBframe :
            susers dbB = susers db /\
            (forall id, book_static <$> sbooks dbB !! id
                        = book_static <$> sbooks db !! id) /\
            (forall tid, tid <> b_autoId envB ->
                         stransactions dbB !! tid = stransactions db !! tid)).
  { destruct HB as [->|(bk & Hb & ->)]; [repeat split|].
    cbn [sbooks susers stransactions]. split; [reflexivity|]. split.
    - intros id. destruct (decide (b = id)) as [<-|Hne].
      + rewrite lookup_insert_eq, Hb. reflexivity.
      + rewrite lookup_insert_ne by exact Hne. reflexivity.
    - intros tid Hne. apply lookup_insert_ne. congruence. }
  assert (HRframe :
            susers dbR = susers db /\
            (forall id, book_static <$> sbooks dbR !! id
                        = book_static <$> sbooks db !! id) /\
            (forall tid, tid <> doc_id txn ->
                         stransactions dbR !! tid = stransactions db !! tid) /\
            dom (stransactions dbR) = dom (stransactions db)).
  { destruct HR as [->|(bk & t & fine & Hb & Ht & ->)]; [repeat split|].
    cbn [sbooks susers stransactions]. split; [reflexivity|]. split; [|split].
    - intros id. destruct (decide (bookId (doc_data txn) = id)) as [<-|Hne].
      + rewrite lookup_insert_eq, Hb. reflexivity.
      + rewrite lookup_insert_ne by exact Hne. reflexivity.
    - intros tid Hne. apply lookup_insert_ne. congruence.
    - apply dom_insert_lookup_L. eexists. exact Ht. }
  destruct HBframe as (HB1 & HB2 & HB3).
  destruct HRframe as (HR1 & HR2 & HR3 & HR4).
  repeat split; assumption.
Qed.

Lemma X4_handlers_frame_witness :
  stransactions (handleBorrow 0 (snapshot (sbooks db_lent)) "U2" "B" env_U2
                              db_lent).2 !! "T1"
  = stransactions db_lent !! "T1" /\
  stransactions (handleReturn txn_T1 env_day9 db_lent).2 !! "T2"
  = stransactions db_lent !! "T2".
Proof.
  pose proof (X4_handlers_frame 0 (snapshot (sbooks db_lent)) "U2" "B" env_U2
                txn_T1 env_day9 db_lent) as H.
  cbv zeta in H. destruct H as (_ & _ & _ & _ & HB & HR & _).
  split; [apply HB|apply HR]; discriminate.
Defined.

(** X5.  No partial commit: a borrow that is not reported as successful, and
    a return that is not, leave the database exactly as it was; a successful
    borrow has written both the decrement and the open transaction, and a
    successful return both the increment and the return date. *)
Theorem X5_all_or_nothing tza books u b envB txn envR db :
  ((handleBorrow tza books u b envB db).1 <> Borrowed ->
   (handleBorrow tza books u b envB db).2 = db) /\
  ((handleBorrow tza books u b envB db).1 = Borrowed ->
   exists bk,
     sbooks db !! b = Some bk /\
     sbooks (handleBorrow tza books u b envB db).2 !! b
     = Some (set_availableCopies (availableCopies bk - 1) bk) /\
     stransactions (handleBorrow tza books u b envB db).2 !! b_autoId envB
     = Some (new_txn tza u b envB)) /\
  ((forall fine, (handleReturn txn envR db).1 <> Returned fine) ->
   (handleReturn txn envR db).2 = db) /\
  (forall fine, (handleReturn txn envR db).1 = Returned fine ->
   exists bk t,
     sbooks db !! bookId (doc_data txn) = Some bk /\
     stransactions db !! doc_id txn = Some t /\
     sbooks (handleReturn txn envR db).2 !! bookId (doc_data txn)
     = Some (set_availableCopies (availableCopies bk + 1) bk) /\
     stransactions (handleReturn txn envR db).2 !! doc_id txn
     = Some (close_txn (Some (r_server envR)) fine t)).
Proof.
  destruct (handleBorrow_cases tza books u b envB db)
    as [[Hne Hsame]|(sel & bk & _ & _ & Hb & HeqB)];
    destruct (handleReturn_cases txn envR db)
      as [[HneR HsameR]|(bk' & t & _ & Hb' & Ht & HeqR)].
  all: repeat split.
  all: try (intros _; assumption).
  all: try (intros H; contradiction).
  all: try (intros fine H; exfalso; exact (HneR fine H)).
  all: try (rewrite HeqB; cbn [fst snd]; intros H; try contradiction;
            try (exists bk; repeat split;
                 [exact Hb|apply lookup_insert_eq|apply lookup_insert_eq])).
  all: try (rewrite HeqR; cbn [fst snd]; intros H; exfalso;
            eapply H; reflexivity).
  all: try (rewrite HeqR; cbn [fst snd]; intros fine [= <-];
            exists bk', t; repeat split;
            [exact Hb'|exact Ht|apply lookup_insert_eq|apply lookup_insert_eq]).
Qed.

Lemma X5_all_or_nothing_witness :
  (handleBorrow 0 (snapshot (sbooks db_lent)) "U2" "B" env_U2 db_lent).2
  = db_lent /\
  exists bk t,
    sbooks db_lent !! "B" = Some bk /\
    stransactions db_lent !! "T1" = Some t /\
    sbooks (handleReturn txn_T1 env_day9 db_lent).2 !! "B"
    = Some (set_availableCopies (availableCopies bk + 1) bk) /\
    stransactions (handleReturn txn_T1 env_day9 db_lent).2 !! "T1"
    = Some (close_txn (Some (r_server env_day9)) 1.00%Q t).
Proof.
  destruct (X5_all_or_nothing 0 (snapshot (sbooks db_lent)) "U2" "B" env_U2
              txn_T1 env_day9 db_lent) as (HB & _ & _ & HR).
  split.
  - apply HB. vm_compute. discriminate.
  - apply HR. vm_compute. reflexivity.
Defined.

(** ** Dashboard *)

Section Sums.
Context {A : Type} (f : A -> Z).

Lemma foldl_sum (l : list A) (a : Z) :
  foldl (fun sum x => sum + f x) a l = a + foldr (fun x s => f x + s) 0 l.
Proof.
  revert a. induction l as [|x l IH]; intros a; simpl; [lia|].
  rewrite IH. lia.
Qed.

Lemma foldr_sum_perm (l l' : list A) :
  l ≡ₚ l' ->
  foldr (fun x s => f x + s) 0 l = foldr (fun x s => f x + s) 0 l'.
Proof. induction 1; simpl; lia. Qed.
End Sums.

Lemma filter_length_perm {A} (p : A -> bool) (l l' : list A) :
  l ≡ₚ l' -> length (List.filter p l) = length (List.filter p l').
Proof.
  induction 1 as [|x l l' _ IH|x y l|l l' l'' _ IH1 _ IH2]; simpl.
  - reflexivity.
  - destruct (p x); simpl; lia.
  - destruct (p x), (p y); reflexivity.
  - lia.
Qed.

(** Counting in a collection is counting in its snapshot. *)
Lemma size_filter_snapshot {A} (P : string * A -> Prop)
    `{!forall x, Decision (P x)} (m : gmap string A) :
  size (filter P m)
  = length (List.filter (fun kt => bool_decide (P kt)) (snapshot m)).
Proof.
  unfold snapshot. induction m as [|i x m Hi IH] using map_ind.
  - rewrite map_filter_empty, map_size_empty, map_to_list_empty. reflexivity.
  - rewrite (filter_length_perm _ _ _ (map_to_list_insert m i x Hi)).
    rewrite map_filter_insert. simpl.
    assert (Hf : filter P m !! i = None)
      by (apply map_lookup_filter_None; left; exact Hi).
    destruct (decide (P (i, x))) as [HP|HP].
    + rewrite (bool_decide_eq_true_2 _ HP). simpl.
      rewrite map_size_insert, Hf, IH. reflexivity.
    + rewrite (bool_decide_eq_false_2 _ HP).
      rewrite map_filter_delete, map_size_delete, Hf, IH. reflexivity.
Qed.

Section DashboardProperties.
Import Dashboard.

Lemma borrowedBooks_sum (books : list (Doc Book)) :
  borrowedBooks books
  = foldr (fun b s => (totalCopies (doc_data b) - availableCopies (doc_data b))
                      + s) 0 books.
Proof.
  unfold borrowedBooks, totalBooks, availableBooks.
  rewrite !foldl_sum. induction books as [|b books IH]; simpl; lia.
Qed.

Lemma books_bounds (books : list (Doc Book)) :
  Forall (fun b => 0 <= availableCopies (doc_data b)
                   <= totalCopies (doc_data b)) books ->
  0 <= availableBooks books <= totalBooks books.
Proof.
  unfold totalBooks, availableBooks. rewrite !foldl_sum.
  induction 1 as [|b books Hb _ IH]; simpl; lia.
Qed.

(** The open transactions of the books of a list of distinct ids. *)
Lemma open_count_sum (ks : list string) (l : list (Doc Txn)) :
  NoDup ks ->
  foldr (fun k s =>
           (length (List.filter (fun kt => bool_decide (open_for k kt)) l)
            + s)%nat) 0%nat ks
  = length (List.filter
              (fun kt => bool_decide (returnDate kt.2 = None)
                         && bool_decide (bookId kt.2 ∈ ks)) l).
Proof.
  intros Hnd. induction l as [|kt l IH].
  - simpl. induction ks; simpl; [reflexivity|]. apply IHks.
    apply NoDup_cons in Hnd as [_ Hnd]. exact Hnd.
  - assert (Hsplit : forall ks',
               foldr (fun k s =>
                        (length (List.filter
                                   (fun kt => bool_decide (open_for k kt))
                                   (kt :: l)) + s)%nat) 0%nat ks'
               = (foldr (fun k s =>
                           ((if bool_decide (open_for k kt) then 1 else 0)
                            + s)%nat) 0%nat ks'
                  + foldr (fun k s =>
                             (length (List.filter
                                        (fun kt => bool_decide (open_for k kt))
                                        l) + s)%nat) 0%nat ks')%nat).
    { induction ks' as [|k ks' IH']; [reflexivity|].
      cbn [foldr]. rewrite IH'. cbn [List.filter].
      destruct (bool_decide (open_for k kt)); simpl; lia. }
    rewrite Hsplit, IH. clear Hsplit IH.
    assert (Hone : foldr (fun k s =>
                            ((if bool_decide (open_for k kt) then 1 else 0)
                             + s)%nat) 0%nat ks
                   = if bool_decide (returnDate kt.2 = None)
                        && bool_decide (bookId kt.2 ∈ ks)
                     then 1%nat else 0%nat).
    { unfold open_for. induction ks as [|k ks IHks]; cbn [foldr].
      - rewrite (bool_decide_eq_false_2 (bookId kt.2 ∈ [])),
          andb_false_r; [reflexivity|].
        apply not_elem_of_nil.
      - apply NoDup_cons in Hnd as [Hk Hnd]. rewrite (IHks Hnd).
        destruct (decide (returnDate kt.2 = None)) as [Ho|Ho].
        + rewrite (bool_decide_eq_true_2 _ Ho). cbn [andb].
          destruct (decide (bookId kt.2 = k)) as [Hb|Hb].
          * rewrite bool_decide_eq_true_2 by (split; assumption).
            rewrite (bool_decide_eq_false_2 (bookId kt.2 ∈ ks))
              by (rewrite Hb; exact Hk).
            rewrite (bool_decide_eq_true_2 (bookId kt.2 ∈ k :: ks))
              by (rewrite Hb; left).
            reflexivity.
          * rewrite (bool_decide_eq_false_2 (_ ∧ _)) by (intros [? _]; contradiction).
            destruct (decide (bookId kt.2 ∈ ks)) as [Hin|Hin].
            -- rewrite (bool_decide_eq_true_2 _ Hin).
               rewrite bool_decide_eq_true_2 by (right; exact Hin).
               reflexivity.
            -- rewrite (bool_decide_eq_false_2 _ Hin).
               rewrite bool_decide_eq_false_2; [reflexivity|].
               intros [?|?]%elem_of_cons; contradiction.
        + rewrite (bool_decide_eq_false_2 _ Ho). cbn [andb].
          rewrite bool_decide_eq_false_2 by (intros [_ ?]; contradiction).
          reflexivity. }
    rewrite Hone. cbn [List.filter].
    destruct (bool_decide (returnDate kt.2 = None)
              && bool_decide (bookId kt.2 ∈ ks)); simpl; lia.
Qed.

End DashboardProperties.

Lemma has_book_snapshot (books : gmap string Book) (t : Doc Txn) :
  has_book (snapshot books) t
  = bool_decide (bookId t.2 ∈ (snapshot books).*1).
Proof.
  unfold has_book. apply bool_decide_ext.
  rewrite find_by_id_snapshot. unfold doc_data, snapshot. split.
  - intros [d Hd]. destruct (books !! bookId t.2) as [bk|] eqn:Hb;
      [|discriminate].
    apply list_elem_of_fmap. exists (bookId t.2, bk).
    split; [reflexivity|]. apply elem_of_map_to_list. exact Hb.
  - intros ([k bk] & Hk & Hin)%list_elem_of_fmap. simpl in Hk. subst k.
    apply elem_of_map_to_list in Hin. rewrite Hin. eexists. reflexivity.
Qed.

Lemma borrowedBooks_insert (books : gmap string Book) b bk n :
  books !! b = Some bk ->
  Dashboard.borrowedBooks (snapshot (<[b := set_availableCopies n bk]> books))
  = Dashboard.borrowedBooks (snapshot books) + (availableCopies bk - n) /\
  Dashboard.totalBooks (snapshot (<[b := set_availableCopies n bk]> books))
  = Dashboard.totalBooks (snapshot books).
Proof.
  intros Hb.
  assert (Hnone : delete b books !! b = None) by apply lookup_delete_eq.
  assert (H1 : snapshot (<[b := set_availableCopies n bk]> books)
               ≡ₚ (b, set_availableCopies n bk) :: snapshot (delete b books)).
  { unfold snapshot. rewrite <- insert_delete_eq.
    apply map_to_list_insert. exact Hnone. }
  assert (H2 : snapshot books ≡ₚ (b, bk) :: snapshot (delete b books)).
  { unfold snapshot. rewrite <- (insert_id books b bk Hb) at 1.
    rewrite <- insert_delete_eq. apply map_to_list_insert. exact Hnone. }
  split.
  - rewrite !borrowedBooks_sum.
    rewrite (foldr_sum_perm _ _ _ H1), (foldr_sum_perm _ _ _ H2).
    simpl. lia.
  - unfold Dashboard.totalBooks. rewrite !foldl_sum.
    rewrite (foldr_sum_perm _ _ _ H1), (foldr_sum_perm _ _ _ H2).
    simpl. lia.
Qed.

(** X6.  On a view of a database that satisfies I1, the cards of the
    dashboard are consistent: the available copies lie between 0 and the
    total, and so do the borrowed ones. *)
Theorem X6_dashboard_bounds (db : Store) :
  I1 db ->
  let books := snapshot (sbooks db) in
  0 <= Dashboard.availableBooks books <= Dashboard.totalBooks books /\
  0 <= Dashboard.borrowedBooks books <= Dashboard.totalBooks books.
Proof.
  intros H1 books.
  assert (Hb : 0 <= Dashboard.availableBooks books
               <= Dashboard.totalBooks books).
  { apply books_bounds. apply Forall_forall. intros [id bk] Hin.
    apply elem_of_map_to_list in Hin. exact (H1 id bk Hin). }
  unfold Dashboard.borrowedBooks. lia.
Qed.

Lemma X6_dashboard_bounds_witness :
  0 <= Dashboard.availableBooks (snapshot (sbooks db_lent))
  <= Dashboard.totalBooks (snapshot (sbooks db_lent)) /\
  0 <= Dashboard.borrowedBooks (snapshot (sbooks db_lent))
  <= Dashboard.totalBooks (snapshot (sbooks db_lent)).
Proof.
  apply (X6_dashboard_bounds db_lent).
  apply (bool_decide_unpack _). vm_compute. exact I.
Defined.

(** X7.  On views of a database that satisfies I2, the card "Currently
    Borrowed" of the dashboard shows the number of rows of the table of open
    transactions whose book is in the inventory. *)
Theorem X7_borrowed_is_open_count (db : Store) :
  I2 db ->
  Dashboard.borrowedBooks (snapshot (sbooks db))
  = Z.of_nat
      (length (List.filter (has_book (snapshot (sbooks db)))
                 (TransactionManagement.openTransactions
                    (snapshot (stransactions db))))).
Proof.
  intros H2. rewrite borrowedBooks_sum.
  set (txns := snapshot (stransactions db)).
  assert (Hsum : forall l : list (Doc Book),
             (forall d, d ∈ l -> sbooks db !! d.1 = Some d.2) ->
             foldr (fun b s => totalCopies (doc_data b)
                               - availableCopies (doc_data b) + s) 0 l
             = Z.of_nat
                 (foldr (fun k s =>
                           (length (List.filter
                                      (fun kt => bool_decide (open_for k kt))
                                      txns) + s)%nat) 0%nat l.*1)).
  { induction l as [|[id bk] l IH]; intros Hl; [reflexivity|].
    rewrite fmap_cons. cbn [foldr]. rewrite IH.
    2:{ intros d Hd. apply Hl. right. exact Hd. }
    pose proof (H2 id bk (Hl (id, bk) ltac:(left))) as Hbk. simpl in Hbk.
    unfold doc_data. cbn [fst snd]. rewrite Hbk. unfold openCount.
    rewrite (size_filter_snapshot (open_for id)). fold txns. lia. }
  rewrite Hsum.
  2:{ intros [id bk] Hin. apply elem_of_map_to_list in Hin. exact Hin. }
  rewrite open_count_sum by apply NoDup_fst_map_to_list.
  f_equal. unfold TransactionManagement.openTransactions.
  clear Hsum. clearbody txns.
  induction txns as [|t txns IH]; [reflexivity|].
  cbn [List.filter]. unfold doc_data.
  destruct (returnDate t.2) eqn:Hr.
  - rewrite bool_decide_eq_false_2 by discriminate. cbn [andb]. exact IH.
  - rewrite bool_decide_eq_true_2 by reflexivity. cbn [andb List.filter].
    rewrite has_book_snapshot.
    destruct (bool_decide (bookId t.2 ∈ (snapshot (sbooks db)).*1));
      simpl; rewrite IH; reflexivity.
Qed.

Lemma X7_borrowed_is_open_count_witness :
  Dashboard.borrowedBooks (snapshot (sbooks db_lent))
  = Z.of_nat
      (length (List.filter (has_book (snapshot (sbooks db_lent)))
                 (TransactionManagement.openTransactions
                    (snapshot (stransactions db_lent))))).
Proof.
  apply (X7_borrowed_is_open_count db_lent).
  apply (bool_decide_unpack _). vm_compute. exact I.
Defined.

(** X8.  The dashboard renders only while there is no transaction: the sum
    of the fines throws on the first transaction it meets, whatever the
    books, the users and the fines are. *)
Theorem X8_dashboard_crashes now books users transactions :
  (transactions = [] ->
   Dashboard.render now books users transactions
   = Some (Dashboard.mkCards
             (Dashboard.totalBooks books) (Dashboard.availableBooks books)
             (Dashboard.borrowedBooks books) (length users) 0 0%Q
             (Dashboard.totalStaff users) (Dashboard.totalStudents users))) /\
  (transactions <> [] ->
   Dashboard.render now books users transactions = None).
Proof.
  unfold Dashboard.render, Dashboard.totalFines. split.
  - intros ->. reflexivity.
  - intros Hne. destruct transactions as [|t ts]; [contradiction|].
    clear Hne. cbn [foldl]. simpl.
    assert (Hnone : foldl (fun (acc : option Q) (_ : Doc Txn) =>
                             acc ≫= fun _ => (None : option Q)) None ts
                    = None).
    { induction ts as [|t' ts IH]; [reflexivity|exact IH]. }
    rewrite Hnone. reflexivity.
Qed.

Lemma X8_dashboard_crashes_witness :
  Dashboard.render t_borrow (snapshot (sbooks db_lent)) []
                   (snapshot (stransactions db_lent)) = None.
Proof.
  apply (X8_dashboard_crashes t_borrow (snapshot (sbooks db_lent)) []
           (snapshot (stransactions db_lent))).
  vm_compute. discriminate.
Defined.

Lemma calculateFine_positive (due now : Z) :
  due < now -> (0 < calculateFine (Some due) (Some now))%Q.
Proof.
  intros Hlate.
  pose proof (ceil_days_least (now - due)) as Hc.
  assert (Hk : 0 <= ceil_days (now - due) - 1).
  { assert (0 < msPerDay) by reflexivity. nia. }
  replace now with (due + (now - due)) by lia.
  rewrite (calculateFine_late due (now - due) (ceil_days (now - due) - 1) Hk)
    by lia.
  unfold Qlt. simpl. lia.
Qed.

(** X9.  The overdue count of the dashboard against the fine calculator: a
    returned transaction is never overdue; an open transaction with a due
    date is overdue exactly when returning it at that instant would cost a
    fine; an open transaction without a due date counts as overdue at any
    instant after the epoch although its fine is 0. *)
Theorem X9_overdue_is_fined (now : Z) (t : Doc Txn) :
  (returnDate (doc_data t) <> None -> Dashboard.overdue now t = false) /\
  (forall due,
      returnDate (doc_data t) = None -> dueDate (doc_data t) = Some due ->
      (Dashboard.overdue now t = true
       <-> (0 < calculateFine (Some due) (Some now))%Q)) /\
  (returnDate (doc_data t) = None -> dueDate (doc_data t) = None ->
   (Dashboard.overdue now t = true <-> 0 < now) /\
   calculateFine (dueDate (doc_data t)) (Some now) = 0%Q).
Proof.
  unfold Dashboard.overdue, Dashboard.before, Dashboard.toDate.
  split; [|split].
  - intros Hr. destruct (returnDate (doc_data t)); [reflexivity|contradiction].
  - intros due -> ->. cbn [default]. split.
    + intros H. apply Z.ltb_lt in H. apply calculateFine_positive. exact H.
    + intros H. apply Z.ltb_lt. destruct (Z.lt_ge_cases due now) as [|Hge];
        [assumption|].
      rewrite calculateFine_on_time in H by lia. apply Qlt_irrefl in H.
      contradiction.
  - intros -> ->. cbn [default]. split; [apply Z.ltb_lt|reflexivity].
Qed.

Lemma X9_overdue_is_fined_witness :
  Dashboard.overdue (t_borrow + 9 * msPerDay) txn_T1 = true
  <-> Qlt 0 (calculateFine (Some (t_borrow + 7 * msPerDay))
                           (Some (t_borrow + 9 * msPerDay))).
Proof.
  destruct (X9_overdue_is_fined (t_borrow + 9 * msPerDay) txn_T1)
    as (_ & H & _).
  apply H; reflexivity.
Defined.

(** X10.  The dashboard follows the loans: a borrow that goes through raises
    the card "Currently Borrowed" of the next view by one, a return that goes
    through lowers it by one, and neither changes the card "Total Books". *)
Theorem X10_dashboard_tracks_loans tza db :
  (forall u b env bk,
      u <> "" -> b <> "" ->
      sbooks db !! b = Some bk -> 1 <= availableCopies bk ->
      let db' := step tza db (OpBorrow u b env) in
      Dashboard.borrowedBooks (snapshot (sbooks db'))
      = Dashboard.borrowedBooks (snapshot (sbooks db)) + 1 /\
      Dashboard.totalBooks (snapshot (sbooks db'))
      = Dashboard.totalBooks (snapshot (sbooks db))) /\
  (forall tid env t bk,
      stransactions db !! tid = Some t -> returnDate t = None ->
      sbooks db !! bookId t = Some bk ->
      let db' := step tza db (OpReturn tid env) in
      Dashboard.borrowedBooks (snapshot (sbooks db'))
      = Dashboard.borrowedBooks (snapshot (sbooks db)) - 1 /\
      Dashboard.totalBooks (snapshot (sbooks db'))
      = Dashboard.totalBooks (snapshot (sbooks db))).
Proof.
  split.
  - intros u b env bk Hu Hb Hbk Havail db'. unfold db'.
    rewrite (step_borrow_synced tza u b env db bk Hu Hb Hbk Havail).
    cbn [sbooks].
    destruct (borrowedBooks_insert (sbooks db) b bk (availableCopies bk - 1)
                Hbk) as [-> ->].
    split; [lia|reflexivity].
  - intros tid env t bk Ht Hopen Hbk db'. unfold db'. cbn [step].
    rewrite find_by_id_snapshot, Ht. cbn [fmap option_fmap option_map].
    rewrite (handleReturn_open (tid, t) env db bk t Hopen Hbk Ht).
    cbn [snd sbooks doc_data].
    destruct (borrowedBooks_insert (sbooks db) (bookId t) bk
                (availableCopies bk + 1) Hbk) as [-> ->].
    split; [lia|reflexivity].
Qed.

Lemma X10_dashboard_tracks_loans_witness :
  Dashboard.borrowedBooks
    (snapshot (sbooks (step 0 db_B (OpBorrow "U1" "B" env_U1))))
  = Dashboard.borrowedBooks (snapshot (sbooks db_B)) + 1 /\
  Dashboard.borrowedBooks
    (snapshot (sbooks (step 0 db_lent (OpReturn "T1" env_day9))))
  = Dashboard.borrowedBooks (snapshot (sbooks db_lent)) - 1.
Proof.
  split.
  - destruct (X10_dashboard_tracks_loans 0 db_B) as [HB _].
    apply (HB "U1" "B" env_U1 book_B);
      [discriminate|discriminate|vm_compute; reflexivity
      |vm_compute; discriminate].
  - destruct (X10_dashboard_tracks_loans 0 db_lent) as [_ HR].
    apply (HR "T1" env_day9 txn_T1.2 (set_availableCopies 0 book_B));
      vm_compute; reflexivity.
Defined.

(** ** Transaction desk *)

(** X11.  The list of books offered for a borrow is exact on an up-to-date
    view: a borrow for a selected user goes through if and only if the book
    is one of the list. *)
Theorem X11_offered_is_borrowable tza u b env db :
  u <> "" -> b <> "" ->
  ((handleBorrow tza (snapshot (sbooks db)) u b env db).1 = Borrowed
   <-> exists bk,
         (b, bk) ∈ TransactionManagement.availableBooks (snapshot (sbooks db))).
Proof.
  intros Hu Hb. unfold TransactionManagement.availableBooks. split.
  - intros Hok.
    destruct (handleBorrow_cases tza (snapshot (sbooks db)) u b env db)
      as [[Hne _]|(sel & bk & Hsel & Havail & Hbk & _)]; [contradiction|].
    rewrite find_by_id_snapshot, Hbk in Hsel. injection Hsel as <-.
    exists bk. apply list_elem_of_In, List.filter_In. split.
    + apply list_elem_of_In, elem_of_map_to_list. exact Hbk.
    + simpl in *. apply Z.gtb_lt. lia.
  - intros (bk & Hin).
    apply list_elem_of_In, List.filter_In in Hin as [Hin Havail].
    apply list_elem_of_In, elem_of_map_to_list in Hin.
    apply Z.gtb_lt in Havail. simpl in Havail.
    rewrite (handleBorrow_decided_on_view tza _ u b env db (b, bk) bk Hu Hb);
      [reflexivity| |simpl; lia|exact Hin].
    rewrite find_by_id_snapshot, Hin. reflexivity.
Qed.

Lemma X11_offered_is_borrowable_witness :
  (handleBorrow 0 (snapshot (sbooks db_B)) "U1" "B" env_U1 db_B).1 = Borrowed
  <-> exists bk,
        ("B", bk) ∈ TransactionManagement.availableBooks
                      (snapshot (sbooks db_B)).
Proof.
  apply (X11_offered_is_borrowable 0 "U1" "B" env_U1 db_B); discriminate.
Defined.

(** X12.  The two tables of the desk split the transactions of the view:
    each transaction is in exactly one of them; a return from a row of the
    open table is never stopped by the guard, a return on a transaction of
    the closed table always is; and the closed table shows at most 10 rows,
    the first ones. *)
Theorem X12_open_and_closed_tables (transactions : list (Doc Txn)) env db :
  (TransactionManagement.openTransactions transactions
     ++ TransactionManagement.closedTransactions transactions)
  ≡ₚ transactions /\
  (forall t, t ∈ TransactionManagement.openTransactions transactions ->
             (t ∉ TransactionManagement.closedTransactions transactions) /\
             (handleReturn t env db).1 <> ReturnAlreadyReturned) /\
  (forall t, t ∈ TransactionManagement.closedTransactions transactions ->
             handleReturn t env db = (ReturnAlreadyReturned, db)) /\
  (length (TransactionManagement.closedRows transactions) <= 10)%nat /\
  (TransactionManagement.closedRows transactions)
    `prefix_of` (TransactionManagement.closedTransactions transactions).
Proof.
  unfold TransactionManagement.openTransactions,
    TransactionManagement.closedTransactions, TransactionManagement.closedRows.
  split; [|split; [|split; [|split]]].
  - induction transactions as [|t ts IH]; [reflexivity|].
    cbn [List.filter]. destruct (returnDate (doc_data t)).
    + rewrite <- Permutation_middle. constructor. exact IH.
    + simpl. constructor. exact IH.
  - intros t Hin. apply list_elem_of_In, List.filter_In in Hin as [_ Hopen].
    destruct (returnDate (doc_data t)) eqn:Hr; [discriminate|]. split.
    + intros Hin. apply list_elem_of_In, List.filter_In in Hin as [_ Hc].
      rewrite Hr in Hc. discriminate.
    + destruct (handleReturn_cases t env db)
        as [[Hne Hsame]|(bk & t0 & _ & _ & _ & ->)]; [|discriminate].
      unfold handleReturn in *. rewrite Hr in *. unfold runTransaction in *.
      destruct (return_body t _ env db); discriminate.
  - intros t Hin. apply list_elem_of_In, List.filter_In in Hin as [_ Hc].
    destruct (returnDate (doc_data t)) eqn:Hr; [|discriminate].
    apply (handleReturn_closed t env db _ Hr).
  - rewrite length_take. lia.
  - apply prefix_take.
Qed.

Lemma X12_open_and_closed_tables_witness :
  (txn_T1 ∉ TransactionManagement.closedTransactions log_dangling) /\
  (handleReturn txn_T1 env_day9 db_lent).1 <> ReturnAlreadyReturned.
Proof.
  destruct (X12_open_and_closed_tables (txn_T1 :: log_dangling) env_day9
              db_lent) as (_ & Hopen & _).
  destruct (Hopen txn_T1) as [Hnot Hguard].
  - vm_compute. left.
  - split; [|exact Hguard].
    intros Hin. apply Hnot. exact Hin.
Defined.

(** X13.  The labels of the tables are never empty: the title of the book
    (the name of the user) when the view has the document and the field is
    not empty, and the bracketed id when the field is empty or the view does
    not have the document. *)
Theorem X13_labels books users id :
  TransactionManagement.getBookTitle books id <> "" /\
  TransactionManagement.getUserName users id <> "" /\
  (forall b, find_by_id id books = Some b -> title (doc_data b) <> "" ->
             TransactionManagement.getBookTitle books id = title (doc_data b)) /\
  (forall u, find_by_id id users = Some u -> name (doc_data u) <> "" ->
             TransactionManagement.getUserName users id = name (doc_data u)) /\
  (forall b, find_by_id id books = Some b -> title (doc_data b) = "" ->
             TransactionManagement.getBookTitle books id
             = "[Book ID: " +:+ id +:+ "]") /\
  (forall u, find_by_id id users = Some u -> name (doc_data u) = "" ->
             TransactionManagement.getUserName users id
             = "[User ID: " +:+ id +:+ "]") /\
  (find_by_id id books = None ->
   TransactionManagement.getBookTitle books id = "[Book ID: " +:+ id +:+ "]") /\
  (find_by_id id users = None ->
   TransactionManagement.getUserName users id = "[User ID: " +:+ id +:+ "]").
Proof.
  unfold TransactionManagement.getBookTitle, TransactionManagement.getUserName,
    TransactionManagement.book_placeholder,
    TransactionManagement.user_placeholder.
  assert (Hor : forall x fb, fb <> "" ->
                             TransactionManagement.or_else x fb <> "").
  { intros [[|c s]|] fb Hfb; simpl; [exact Hfb|discriminate|exact Hfb]. }
  repeat split.
  - apply Hor. discriminate.
  - apply Hor. discriminate.
  - intros b -> Ht. simpl. destruct (title (doc_data b)); [contradiction|].
    reflexivity.
  - intros u -> Hn. simpl. destruct (name (doc_data u)); [contradiction|].
    reflexivity.
  - intros b -> Ht. simpl. rewrite Ht. reflexivity.
  - intros u -> Hn. simpl. rewrite Hn. reflexivity.
  - intros ->. reflexivity.
  - intros ->. reflexivity.
Qed.

Lemma X13_labels_witness :
  TransactionManagement.getBookTitle (snapshot (sbooks db_B)) "B" = "Dune" /\
  TransactionManagement.getBookTitle (snapshot (sbooks db_B)) "Z"
  = "[Book ID: Z]" /\
  TransactionManagement.getBookTitle
    [("E", mkBook "" "Frank Herbert" "Chilton" "Fiction" 1 1)] "E"
  = "[Book ID: E]".
Proof.
  destruct (X13_labels (snapshot (sbooks db_B)) [] "B")
    as (_ & _ & Hfound & _).
  destruct (X13_labels (snapshot (sbooks db_B)) [] "Z")
    as (_ & _ & _ & _ & _ & _ & Hmissing & _).
  destruct (X13_labels
              [("E", mkBook "" "Frank Herbert" "Chilton" "Fiction" 1 1)]
              [] "E")
    as (_ & _ & _ & _ & Hempty & _).
  split; [|split].
  - apply (Hfound ("B", book_B)); [vm_compute; reflexivity|discriminate].
  - apply Hmissing. vm_compute. reflexivity.
  - apply (Hempty ("E", mkBook "" "Frank Herbert" "Chilton" "Fiction" 1 1));
      reflexivity.
Defined.

(** ** Book inventory *)

(** X15.  The inventory form refuses a book exactly when its available
    copies exceed its total, and then writes nothing.  It does not look at
    the sign of the counter: what it writes keeps I1 provided the available
    copies of the form are not negative. *)
Theorem X15_addEdit_validation form autoId db :
  let r := BookManagement.handleAddEdit form autoId (sbooks db) in
  (r.1 = BookManagement.Rejected
   <-> totalCopies (BookManagement.formData form)
       < availableCopies (BookManagement.formData form)) /\
  (r.1 = BookManagement.Rejected -> r.2 = sbooks db) /\
  (I1 db -> 0 <= availableCopies (BookManagement.formData form) ->
   I1 (mkStore r.2 (susers db) (stransactions db))).
Proof.
  intros r. unfold r, BookManagement.handleAddEdit.
  destruct (Z.gtb_spec (availableCopies (BookManagement.formData form))
                       (totalCopies (BookManagement.formData form)))
    as [Hgt|Hle].
  - cbn [fst snd]. split; [split; [intros _; lia|reflexivity]|].
    split; [reflexivity|]. intros Hinv _. destruct db. exact Hinv.
  - assert (Hwrite : forall id, I1 db ->
              0 <= availableCopies (BookManagement.formData form) ->
              I1 (mkStore (<[id := BookManagement.formData form]> (sbooks db))
                          (susers db) (stransactions db))).
    { intros id H1 H0. unfold I1. cbn [sbooks].
      apply map_Forall_insert_2; [lia|exact H1]. }
    destruct (if BookManagement.isEditMode form
              then BookManagement.currentBook form else None) as [b|];
      [destruct (bool_decide (doc_id b = ""))|]; cbn [fst snd];
      (split; [split; [discriminate|lia]|]);
      (split; [discriminate|apply Hwrite]).
Qed.

Lemma X15_addEdit_validation_witness :
  I1 (mkStore
        (BookManagement.handleAddEdit
           (BookManagement.mkForm true (Some ("B", book_B))
              (set_availableCopies 0 book_B)) "N1" (sbooks db_B)).2
        (susers db_B) (stransactions db_B)).
Proof.
  pose proof (X15_addEdit_validation
                (BookManagement.mkForm true (Some ("B", book_B))
                   (set_availableCopies 0 book_B)) "N1" db_B) as H.
  cbv zeta in H. destruct H as (_ & _ & H). apply H.
  - apply (bool_decide_unpack _). vm_compute. exact I.
  - vm_compute. discriminate.
Defined.

(** X16.  Opening a book of the inventory in the form and saving it without
    a change updates the book and leaves the inventory as it was, when the
    book satisfies the check of the form. *)
Theorem X16_open_and_save id bk autoId (books : gmap string Book) :
  id <> "" -> books !! id = Some bk ->
  availableCopies bk <= totalCopies bk ->
  BookManagement.handleAddEdit (BookManagement.openModal (Some (id, bk)))
                               autoId books
  = (BookManagement.BookUpdated, books).
Proof.
  intros Hid Hbk Hle. unfold BookManagement.handleAddEdit,
    BookManagement.openModal. cbn.
  destruct (Z.gtb_spec (availableCopies bk) (totalCopies bk)); [lia|].
  rewrite (bool_decide_eq_false_2 _ Hid).
  rewrite (insert_id books id bk Hbk). reflexivity.
Qed.

Lemma X16_open_and_save_witness :
  BookManagement.handleAddEdit (BookManagement.openModal (Some ("B", book_B)))
                               "N1" (sbooks db_B)
  = (BookManagement.BookUpdated, sbooks db_B).
Proof.
  apply (X16_open_and_save "B" book_B "N1" (sbooks db_B)).
  - discriminate.
  - vm_compute. reflexivity.
  - vm_compute. discriminate.
Defined.

(** X17.  Deleting a book strands its loans: once the book of an open
    transaction is deleted, every return of the transaction fails and writes
    nothing, report V no longer counts the transaction, and a borrow of the
    book fails in its transaction when the view still lists the book and is
    refused when the view is up to date. *)
Theorem X17_delete_strands_loans tza txn envR u envB books db :
  returnDate (doc_data txn) = None ->
  u <> "" -> bookId (doc_data txn) <> "" ->
  let b := bookId (doc_data txn) in
  let db' := mkStore (BookManagement.handleDelete b true (sbooks db))
                     (susers db) (stransactions db) in
  handleReturn txn envR db' = (ReturnFailed, db') /\
  has_book (snapshot (sbooks db')) txn = false /\
  handleBorrow tza (snapshot (sbooks db')) u b envB db'
  = (BorrowUnavailable, db') /\
  (forall sel, find_by_id b books = Some sel ->
               1 <= availableCopies (doc_data sel) ->
               handleBorrow tza books u b envB db' = (BorrowFailed, db')).
Proof.
  intros Hopen Hu Hb b db'.
  assert (Hgone : sbooks db' !! b = None) by apply lookup_delete_eq.
  split; [|split; [|split]].
  - apply handleReturn_failed; [exact Hopen|left; exact Hgone].
  - unfold has_book. apply bool_decide_eq_false_2.
    fold b. rewrite find_by_id_snapshot, Hgone. intros [? ?]. discriminate.
  - unfold handleBorrow.
    rewrite (bool_decide_eq_false_2 _ Hu), (bool_decide_eq_false_2 _ Hb).
    cbn [orb]. rewrite find_by_id_snapshot, Hgone. reflexivity.
  - intros sel Hsel Havail. unfold handleBorrow, runTransaction.
    rewrite (bool_decide_eq_false_2 _ Hu), (bool_decide_eq_false_2 _ Hb).
    cbn [orb]. rewrite Hsel.
    destruct (Z.ltb_spec (availableCopies (doc_data sel)) 1); [lia|].
    rewrite (borrow_body_None tza u b envB db' Hgone). reflexivity.
Qed.

Lemma X17_delete_strands_loans_witness :
  let db' := mkStore (BookManagement.handleDelete "B" true (sbooks db_lent))
                     (susers db_lent) (stransactions db_lent) in
  handleReturn txn_T1 env_day9 db' = (ReturnFailed, db') /\
  has_book (snapshot (sbooks db')) txn_T1 = false /\
  handleBorrow 0 (snapshot (sbooks db')) "U2" "B" env_U2 db'
  = (BorrowUnavailable, db') /\
  (forall sel, find_by_id "B" (snapshot (sbooks db_B)) = Some sel ->
               1 <= availableCopies (doc_data sel) ->
               handleBorrow 0 (snapshot (sbooks db_B)) "U2" "B" env_U2 db'
               = (BorrowFailed, db')).
Proof.
  apply (X17_delete_strands_loans 0 txn_T1 env_day9 "U2" env_U2
           (snapshot (sbooks db_B)) db_lent).
  - reflexivity.
  - discriminate.
  - discriminate.
Defined.

(** ** User accounts and the defaulter flags *)

(** X18.  Recomputing the defaulter flags is idempotent: a second pass over
    the same log, from a view that shows the users after the first pass,
    changes nothing. *)
Theorem X18_recompute_idempotent transactions db :
  recompute_defaulters transactions (recompute_defaulters transactions db)
  = recompute_defaulters transactions db.
Proof.
  unfold recompute_defaulters. cbn [sbooks susers stransactions]. f_equal.
  apply map_eq. intros uid. rewrite !defaulter_effect_lookup.
  destruct (susers db !! uid); reflexivity.
Qed.

(** X19.  An account created with a name that is blank after trimming is not
    created; otherwise the new user is stored under the new id with the
    trimmed name, in good standing, no other user is touched, and the next
    recomputation of the flags keeps the new user in good standing as long
    as the log has no fined transaction under its id. *)
Theorem X19_create_user (trim : string -> string) name role autoId
    transactions db :
  let users' := handleCreateUser trim name role autoId (susers db) in
  (trim name = "" -> users' = susers db) /\
  (trim name <> "" ->
   users' !! autoId = Some (mkUser (trim name) role false) /\
   (forall uid, uid <> autoId -> users' !! uid = susers db !! uid) /\
   (Forall (fun t => fined autoId t = false) transactions ->
    susers (recompute_defaulters transactions
              (mkStore (sbooks db) users' (stransactions db))) !! autoId
    = Some (mkUser (trim name) role false))).
Proof.
  intros users'. unfold users', handleCreateUser. split.
  - intros H. rewrite (bool_decide_eq_true_2 _ H). reflexivity.
  - intros H. rewrite (bool_decide_eq_false_2 _ H).
    split; [apply lookup_insert_eq|].
    split; [intros uid Hne; apply lookup_insert_ne; congruence|].
    intros Hnone. unfold recompute_defaulters. cbn [susers].
    rewrite defaulter_effect_lookup, lookup_insert_eq.
    rewrite is_regular_defaulter_spec.
    assert (Hzero : List.filter (fined autoId) transactions = []).
    { induction Hnone as [|t ts Ht _ IH]; [reflexivity|].
      cbn [List.filter]. rewrite Ht. exact IH. }
    rewrite Hzero. reflexivity.
Qed.

Lemma X19_create_user_witness :
  let users' := handleCreateUser (fun s => s) "Cleo" Staff "U3"
                                 (susers db_users) in
  users' !! "U3" = Some (mkUser "Cleo" Staff false) /\
  (forall uid, uid <> "U3" -> users' !! uid = susers db_users !! uid) /\
  (Forall (fun t => fined "U3" t = false) log_two_late ->
   susers (recompute_defaulters log_two_late
             (mkStore (sbooks db_users) users' (stransactions db_users)))
     !! "U3"
   = Some (mkUser "Cleo" Staff false)).
Proof.
  pose proof (X19_create_user (fun s => s) "Cleo" Staff "U3" log_two_late
                db_users) as H.
  cbv zeta in H. destruct H as [_ H]. apply H. discriminate.
Defined.

(** ** The defaulter flags from any view *)

Lemma updateDoc_caught_lookup {A} (id uid : string) (f : A -> A)
    (m : gmap string A) :
  updateDoc_caught id f m !! uid
  = if decide (uid = id) then f <$> m !! uid else m !! uid.
Proof.
  unfold updateDoc_caught, t_update.
  destruct (decide (uid = id)) as [->|Hne].
  - destruct (m !! id) as [x|] eqn:Hx; simpl.
    + rewrite lookup_insert_eq. reflexivity.
    + rewrite Hx. reflexivity.
  - destruct (m !! id) as [x|]; simpl; [|reflexivity].
    rewrite lookup_insert_ne by congruence. reflexivity.
Qed.

Lemma find_by_id_fresh {A} (id : string) (l : list (Doc A)) :
  id ∉ l.*1 -> find_by_id id l = None.
Proof.
  intros Hid. destruct (find_by_id id l) as [d|] eqn:Hf; [|reflexivity].
  apply find_by_id_Some in Hf as [<- Hin]. exfalso. apply Hid.
  apply (list_elem_of_fmap_2 fst) in Hin. exact Hin.
Qed.

Lemma find_by_id_cons {A} (k id : string) (x : A) (l : list (Doc A)) :
  find_by_id k ((id, x) :: l)
  = if bool_decide (id = k) then Some (id, x) else find_by_id k l.
Proof. reflexivity. Qed.

(** The loop of [updateDefaulterStatus] over the users of any view whose
    ids are distinct. *)
Lemma updateDefaulterStatus_view (flag : string -> bool)
    (users : list (Doc User)) :
  NoDup users.*1 ->
  forall (store : gmap string User) uid,
    foldl (fun store user =>
             if negb (Bool.eqb (isDefaulter (doc_data user))
                               (flag (doc_id user)))
             then updateDoc_caught (doc_id user)
                    (set_isDefaulter (flag (doc_id user))) store
             else store) store users !! uid
    = match find_by_id uid users with
      | Some row =>
          if Bool.eqb (isDefaulter (doc_data row)) (flag uid)
          then store !! uid
          else set_isDefaulter (flag uid) <$> store !! uid
      | None => store !! uid
      end.
Proof.
  induction users as [|[id u] users IH]; intros Hnd store uid.
  - reflexivity.
  - rewrite fmap_cons in Hnd. apply NoDup_cons in Hnd as [Hid Hnd].
    change ((id, u).1) with id in Hid.
    cbn [foldl]. rewrite (IH Hnd), find_by_id_cons.
    unfold doc_id, doc_data. cbn [fst snd].
    destruct (decide (id = uid)) as [->|Hne].
    + rewrite bool_decide_eq_true_2 by reflexivity.
      rewrite (find_by_id_fresh uid users Hid). cbn [snd].
      destruct (Bool.eqb (isDefaulter u) (flag uid)); cbn [negb];
        [reflexivity|].
      rewrite updateDoc_caught_lookup, decide_True by reflexivity.
      reflexivity.
    + rewrite (bool_decide_eq_false_2 _ Hne).
      assert (Hstep :
                (if negb (Bool.eqb (isDefaulter u) (flag id))
                 then updateDoc_caught id (set_isDefaulter (flag id)) store
                 else store) !! uid = store !! uid).
      { destruct (negb _); [|reflexivity].
        rewrite updateDoc_caught_lookup, decide_False by congruence.
        reflexivity. }
      rewrite Hstep. reflexivity.
Qed.

(** X27.  The defaulter effect run from any view of the users whose ids are
    distinct.  It touches a stored user only when the view lists the user
    with a flag that differs from the flag it computes (at least 2
    transactions with a positive fine), and then sets the stored flag to the
    computed one, name and role unchanged.  A user the view lists with the
    computed flag is left as stored, whatever the stored flag is, and so is
    a user the view does not list; no user is created or removed. *)
Theorem X27_flags_from_any_view (users : list (Doc User))
    (transactions : list (Doc Txn)) (store : gmap string User) uid :
  NoDup users.*1 ->
  let computed := (2 <=? length (List.filter (fined uid) transactions))%nat in
  defaulter_effect users transactions store !! uid
  = match find_by_id uid users with
    | Some row =>
        if Bool.eqb (isDefaulter (doc_data row)) computed
        then store !! uid
        else set_isDefaulter computed <$> store !! uid
    | None => store !! uid
    end.
Proof.
  intros Hnd computed. unfold defaulter_effect.
  set (counts := userLateCounts transactions).
  set (report := defaultersReport users counts).
  pose proof (defaulterIds_spec users counts) as Hids. fold report in Hids.
  set (ids := (list_to_set (map (fun r : Doc User * nat => doc_id r.1)
                                report) : gset string)) in Hids.
  assert (Hflag : forall row, find_by_id uid users = Some row ->
                    bool_decide (uid ∈ ids) = computed).
  { intros [id u] Hrow. apply find_by_id_Some in Hrow as [Hid Hin].
    simpl in Hid. subst id. unfold computed.
    rewrite <- is_regular_defaulter_spec. fold counts.
    destruct (is_regular_defaulter counts uid) eqn:Hreg.
    - apply bool_decide_eq_true_2, Hids. exists u. split; assumption.
    - apply bool_decide_eq_false_2. intros (u' & _ & Hreg')%Hids.
      congruence. }
  destruct ((0 <? length report)%nat
            || existsb (fun u => isDefaulter (doc_data u)) users) eqn:Hguard.
  - pose proof (updateDefaulterStatus_view
                  (fun id => bool_decide (id ∈ ids)) users Hnd store uid)
      as Hfold.
    cbv beta in Hfold.
    unfold updateDefaulterStatus. fold ids. cbv zeta. rewrite Hfold.
    destruct (find_by_id uid users) as [row|] eqn:Hrow; [|reflexivity].
    rewrite (Hflag row eq_refl). reflexivity.
  - apply orb_false_iff in Hguard as [Hlen Hnone].
    destruct (find_by_id uid users) as [row|] eqn:Hrow; [|reflexivity].
    assert (Hc : computed = false).
    { rewrite <- (Hflag row eq_refl). apply bool_decide_eq_false_2.
      unfold ids. destruct report; [|discriminate]. simpl.
      apply not_elem_of_empty. }
    assert (Hv : isDefaulter (doc_data row) = false).
    { destruct (isDefaulter (doc_data row)) eqn:Hd; [|reflexivity].
      rewrite <- Hnone. symmetry. apply existsb_exists.
      exists row. split; [|exact Hd].
      apply find_by_id_Some in Hrow as [_ Hin].
      apply list_elem_of_In. exact Hin. }
    rewrite Hc, Hv. reflexivity.
Qed.

(** From the view that shows U1 as flagged, the stored flag of U1 is not
    corrected; from the view that shows the stored flags, it is. *)
Lemma X27_flags_from_any_view_witness :
  defaulter_effect view_flagged log_two_late (susers db_users) !! "U1"
  = Some (mkUser "Ann" Student false) /\
  defaulter_effect (snapshot (susers db_users)) log_two_late (susers db_users)
    !! "U1"
  = Some (mkUser "Ann" Student true).
Proof.
  split.
  - rewrite (X27_flags_from_any_view view_flagged log_two_late
               (susers db_users) "U1").
    + vm_compute. reflexivity.
    + apply (bool_decide_unpack _). vm_compute. exact I.
  - rewrite (X27_flags_from_any_view (snapshot (susers db_users))
               log_two_late (susers db_users) "U1").
    + vm_compute. reflexivity.
    + apply NoDup_fst_map_to_list.
Defined.

(** ** Report VI, row by row *)

Section ObjectSet.
Context {V : Type}.
Implicit Types (o : JSObject V) (k : string) (f : option V -> V).

Lemma obj_get_set k k' f o :
  obj_get k (obj_set k' f o)
  = if decide (k' = k) then Some (f (obj_get k o)) else obj_get k o.
Proof.
  induction o as [|[k0 v] o IH]; cbn [obj_set obj_get].
  - destruct (decide (k' = k)) as [->|Hne].
    + rewrite bool_decide_eq_true_2 by reflexivity. reflexivity.
    + rewrite bool_decide_eq_false_2 by exact Hne. reflexivity.
  - destruct (decide (k0 = k')) as [->|Hne0].
    + rewrite bool_decide_eq_true_2 by reflexivity. cbn [obj_get].
      destruct (decide (k' = k)) as [->|Hne].
      * rewrite !bool_decide_eq_true_2 by reflexivity. reflexivity.
      * rewrite !bool_decide_eq_false_2 by exact Hne. reflexivity.
    + rewrite (bool_decide_eq_false_2 _ Hne0). cbn [obj_get]. rewrite IH.
      destruct (decide (k0 = k)) as [->|Hne1].
      * rewrite bool_decide_eq_true_2 by reflexivity.
        rewrite decide_False by congruence. reflexivity.
      * rewrite bool_decide_eq_false_2 by exact Hne1. reflexivity.
Qed.

Lemma obj_set_keys k f o :
  (obj_set k f o).*1 = if decide (k ∈ o.*1) then o.*1 else o.*1 ++ [k].
Proof.
  induction o as [|[k0 v] o IH]; [reflexivity|].
  cbn [obj_set]. rewrite (fmap_cons fst (k0, v) o).
  change ((k0, v).1) with k0.
  destruct (decide (k0 = k)) as [->|Hne].
  - rewrite bool_decide_eq_true_2 by reflexivity.
    rewrite decide_True by left. reflexivity.
  - rewrite (bool_decide_eq_false_2 _ Hne), fmap_cons, IH.
    change ((k0, v).1) with k0.
    destruct (decide (k ∈ o.*1)) as [Hin|Hnin].
    + rewrite decide_True by (right; exact Hin). reflexivity.
    + rewrite decide_False; [reflexivity|].
      intros [?|?]%elem_of_cons; [congruence|contradiction].
Qed.

Lemma obj_set_NoDup k f o : NoDup o.*1 -> NoDup (obj_set k f o).*1.
Proof.
  intros Hnd. rewrite obj_set_keys.
  destruct (decide (k ∈ o.*1)) as [Hin|Hnin]; [exact Hnd|].
  apply NoDup_app. split; [exact Hnd|]. split.
  - intros x Hx [->|Hnil]%elem_of_cons; [contradiction|].
    apply elem_of_nil in Hnil. exact Hnil.
  - apply NoDup_singleton.
Qed.
End ObjectSet.

Section MonthlyReport.
Variable tza : Z.
Implicit Types (users : list (Doc User)) (transactions : list (Doc Txn))
  (o : JSObject Usage) (es : list (string * Role)) (k : string).

(** Report VI as a count of the events of the log. *)
Lemma monthlyUsage_fold users transactions o o' :
  foldl (monthlyUsage_count tza users) (Some o) transactions = Some o' ->
  o' = foldl (fun o e => obj_set e.1 (usage_incr e.2) o) o
             (omap (month_event tza users) transactions).
Proof.
  revert o. induction transactions as [|t ts IH]; intros o.
  - intros [= <-]. reflexivity.
  - cbn [foldl omap list_omap]. unfold monthlyUsage_count at 2, month_event.
    cbn [mbind option_bind].
    destruct (find_by_id (userId (doc_data t)) users) as [user|];
      cbn [mbind option_bind]; [|apply IH].
    destruct (borrowDate (doc_data t)) as [date|]; cbn [mbind option_bind].
    + intros H. apply IH in H. exact H.
    + intros H. exfalso. revert H. clear.
      induction ts as [|t' ts IH]; [discriminate|exact IH].
Qed.

Lemma count_events_cons e es k r :
  count_events (e :: es) k r
  = ((if bool_decide (e.1 = k) && role_is r e.2 then 1 else 0)
     + count_events es k r)%nat.
Proof.
  unfold count_events. cbn [List.filter].
  destruct (bool_decide (e.1 = k) && role_is r e.2); reflexivity.
Qed.

Lemma count_events_roles es k :
  count_events es k None
  = (count_events es k (Some Student) + count_events es k (Some Staff))%nat.
Proof.
  induction es as [|[k' r] es IH]; [reflexivity|].
  rewrite !count_events_cons, IH. cbn [fst snd].
  destruct (bool_decide (k' = k)), r; cbn [andb role_is]; lia.
Qed.

Lemma usage_fold_get es k o :
  obj_get k (foldl (fun o e => obj_set e.1 (usage_incr e.2) o) o es)
  = match count_events es k None with
    | O => obj_get k o
    | S _ =>
        let u := default (mkUsage 0 0 0) (obj_get k o) in
        Some (mkUsage (u_Student u + count_events es k (Some Student))
                      (u_Staff u + count_events es k (Some Staff))
                      (u_Total u + count_events es k None))
    end.
Proof.
  revert o. induction es as [|[k' r] es IH]; intros o; [reflexivity|].
  cbn [foldl fst snd]. rewrite IH, obj_get_set, !count_events_cons.
  cbn [fst snd].
  pose proof (count_events_roles es k) as Hr.
  destruct (decide (k' = k)) as [->|Hne].
  - rewrite bool_decide_eq_true_2 by reflexivity. cbn [andb role_is default].
    unfold usage_incr.
    destruct (count_events es k None) eqn:Hc.
    + assert (count_events es k (Some Student) = 0%nat) as -> by lia.
      assert (count_events es k (Some Staff) = 0%nat) as -> by lia.
      destruct r; simpl; f_equal; f_equal; lia.
    + destruct r; simpl; f_equal; f_equal; lia.
  - rewrite bool_decide_eq_false_2 by exact Hne. cbn [andb Nat.add].
    reflexivity.
Qed.

Lemma usage_fold_NoDup es o :
  NoDup o.*1 ->
  NoDup (foldl (fun o e => obj_set e.1 (usage_incr e.2) o) o es).*1.
Proof.
  revert o. induction es as [|e es IH]; intros o Hnd; [exact Hnd|].
  cbn [foldl]. apply IH, obj_set_NoDup, Hnd.
Qed.

Lemma count_events_omap users transactions k r :
  count_events (omap (month_event tza users) transactions) k r
  = month_count tza users transactions k r.
Proof.
  unfold month_count.
  induction transactions as [|t ts IH]; [reflexivity|].
  cbn [omap list_omap List.filter].
  destruct (month_event tza users t) as [e|]; [|exact IH].
  rewrite count_events_cons, IH.
  destruct (bool_decide (e.1 = k) && role_is r e.2); reflexivity.
Qed.

Lemma localeCompare_total (a b : string) :
  0 < localeCompare a b -> localeCompare b a <= 0.
Proof.
  unfold localeCompare. rewrite (String.compare_antisym a b).
  destruct (String.compare b a); simpl; lia.
Qed.

End MonthlyReport.

(** X20.  When report VI is produced, it has one row per month in which a
    transaction of a user of the view was borrowed, the row holding the
    numbers of those transactions by students, by staff and in total; the
    total of a row is the sum of the other two; and the rows come in
    descending order of the month key. *)
Theorem X20_monthly_rows tza users transactions rows :
  monthlyUsageReport tza users transactions = Some rows ->
  NoDup rows.*1 /\
  Sorted later_first rows /\
  (forall k u,
      (k, u) ∈ rows <->
      (0 < month_count tza users transactions k None)%nat /\
      u = mkUsage (month_count tza users transactions k (Some Student))
                  (month_count tza users transactions k (Some Staff))
                  (month_count tza users transactions k None)) /\
  (forall k u, (k, u) ∈ rows -> u_Total u = (u_Student u + u_Staff u)%nat).
Proof.
  unfold monthlyUsageReport. intros Hrep.
  destruct (foldl (monthlyUsage_count tza users) (Some []) transactions)
    as [usage|] eqn:Hfold; [|discriminate].
  cbn [mbind option_bind] in Hrep. injection Hrep as <-.
  apply monthlyUsage_fold in Hfold.
  assert (Hnd : NoDup usage.*1).
  { rewrite Hfold. apply usage_fold_NoDup. constructor. }
  assert (Hrows : forall k u,
             (k, u) ∈ js_sort (fun a b : string * Usage =>
                                 localeCompare b.1 a.1) usage
             <-> (0 < month_count tza users transactions k None)%nat /\
                 u = mkUsage
                       (month_count tza users transactions k (Some Student))
                       (month_count tza users transactions k (Some Staff))
                       (month_count tza users transactions k None)).
  { intros k u. rewrite js_sort_perm, (obj_get_elem_of usage k u Hnd).
    rewrite Hfold, usage_fold_get.
    rewrite !count_events_omap. cbn [obj_get default].
    destruct (month_count tza users transactions k None) as [|n]; cbn zeta.
    - split; [discriminate|intros [H _]; lia].
    - cbn [u_Student u_Staff u_Total]. split.
      + intros [= <-]. split; [lia|reflexivity].
      + intros [_ ->]. reflexivity. }
  split; [rewrite js_sort_perm; exact Hnd|].
  split.
  { apply (js_sort_Sorted (fun a b : string * Usage => localeCompare b.1 a.1)).
    intros x y. apply localeCompare_total. }
  split; [exact Hrows|].
  intros k u Hin. apply Hrows in Hin as [_ ->]. cbn [u_Student u_Staff u_Total].
  rewrite <- !count_events_omap. apply count_events_roles.
Qed.

Lemma X20_monthly_rows_witness :
  NoDup [("2024-01", mkUsage 2 1 3)].*1 /\
  Sorted later_first [("2024-01", mkUsage 2 1 3)] /\
  u_Total (mkUsage 2 1 3)
  = (u_Student (mkUsage 2 1 3) + u_Staff (mkUsage 2 1 3))%nat.
Proof.
  destruct (X20_monthly_rows 0 (snapshot (susers db_users)) log_dangling
              [("2024-01", mkUsage 2 1 3)]) as (Hnd & Hs & _ & H).
  - vm_compute. reflexivity.
  - split; [exact Hnd|]. split; [exact Hs|].
    apply (H "2024-01"). left.
Defined.

(** ** Report VII and report V, row by row *)

(** X21.  The report of regular defaulters lists exactly the users of the
    view with at least 2 fined transactions in the log, each with that
    number, in descending order of it; it never has more rows than there are
    users. *)
Theorem X21_defaulters_rows (users : list (Doc User))
    (transactions : list (Doc Txn)) :
  let rows := defaultersReport users (userLateCounts transactions) in
  (forall u n,
      (u, n) ∈ rows <->
      u ∈ users /\
      n = length (List.filter (fined (doc_id u)) transactions) /\
      (2 <= n)%nat) /\
  Sorted (fun a b : Doc User * nat => (b.2 <= a.2)%nat) rows /\
  (length rows <= length users)%nat.
Proof.
  intros rows. unfold rows, defaultersReport. split; [|split].
  - intros u n. rewrite js_sort_perm, list_elem_of_In, in_map_iff. split.
    + intros (u' & [= -> <-] & Hin). apply List.filter_In in Hin as [Hin Hreg].
      rewrite is_regular_defaulter_spec in Hreg. apply Nat.leb_le in Hreg.
      rewrite userLateCounts_spec.
      split; [apply list_elem_of_In; exact Hin|]. split; [reflexivity|exact Hreg].
    + intros (Hin & -> & Hn). exists u. split.
      * rewrite userLateCounts_spec. reflexivity.
      * apply List.filter_In. split; [apply list_elem_of_In; exact Hin|].
        rewrite is_regular_defaulter_spec. apply Nat.leb_le. exact Hn.
  - apply (Sorted_weaken
             (fun a b : Doc User * nat => Z.of_nat b.2 - Z.of_nat a.2 <= 0)).
    + intros x y H. lia.
    + apply (js_sort_Sorted
               (fun a b : Doc User * nat => Z.of_nat b.2 - Z.of_nat a.2)).
      intros x y H. lia.
  - rewrite (Permutation_length (js_sort_perm _ _)), length_map.
    apply List.filter_length_le.
Qed.

Lemma X21_defaulters_rows_witness :
  (("U1", mkUser "Ann" Student false), 2%nat)
    ∈ defaultersReport (snapshot (susers db_users))
                       (userLateCounts log_two_late).
Proof.
  pose proof (X21_defaulters_rows (snapshot (susers db_users)) log_two_late)
    as H.
  cbv zeta in H. destruct H as [H _]. apply H.
  split; [|split].
  - apply elem_of_map_to_list. vm_compute. reflexivity.
  - vm_compute. reflexivity.
  - lia.
Defined.

Lemma sum_obj_incr (k : string) (o : JSObject nat) :
  sum_list_with snd (obj_incr k o) = S (sum_list_with snd o).
Proof.
  induction o as [|[k0 v] o IH]; [reflexivity|].
  rewrite obj_incr_cons. destruct (bool_decide (k0 = k)); simpl.
  - reflexivity.
  - rewrite IH. lia.
Qed.

Lemma sum_count_keys (ks : list string) (o : JSObject nat) :
  sum_list_with snd (count_keys o ks)
  = (sum_list_with snd o + length ks)%nat.
Proof.
  unfold count_keys. revert o.
  induction ks as [|k ks IH]; intros o; simpl; [lia|].
  rewrite IH, sum_obj_incr. lia.
Qed.

Lemma length_dimension (dim : Book -> string) (books : list (Doc Book))
    (transactions : list (Doc Txn)) :
  length (omap (dimension_of dim books) transactions)
  = length (List.filter (has_book books) transactions).
Proof.
  induction transactions as [|t ts IH]; [reflexivity|].
  cbn [omap list_omap List.filter]. unfold dimension_of at 1, has_book at 1.
  destruct (find_by_id (bookId (doc_data t)) books) as [b|].
  - rewrite bool_decide_eq_true_2 by (eexists; reflexivity).
    simpl. rewrite IH. reflexivity.
  - rewrite bool_decide_eq_false_2 by (intros [? ?]; discriminate).
    exact IH.
Qed.

(** X22.  When no book of the view has an inherited name for its author,
    publisher or category, the three tables of report V account for the
    same transactions: the counts of each table are numbers and add up to
    the number of transactions whose book is in the view. *)
Theorem X22_report_totals (source_text : string -> string)
    (books : list (Doc Book)) (transactions : list (Doc Txn)) :
  ordinary_keys books ->
  let r := bookReports source_text books transactions in
  let n := length (List.filter (has_book books) transactions) in
  total_count (c_author r) = Some n /\
  total_count (c_publisher r) = Some n /\
  total_count (c_category r) = Some n.
Proof.
  intros Hkeys r n. unfold r.
  rewrite (bookReports_numeric source_text books transactions Hkeys).
  cbn [c_author c_publisher c_category].
  rewrite !total_count_numeric, !sorted_counts_perm, !sum_count_keys,
    !length_dimension.
  repeat split.
Qed.

Lemma X22_report_totals_witness :
  total_count (c_author (bookReports v8_source_text shelf log_shelf))
  = Some 9%nat /\
  total_count (c_publisher (bookReports v8_source_text shelf log_shelf))
  = Some 9%nat /\
  total_count (c_category (bookReports v8_source_text shelf log_shelf))
  = Some 9%nat.
Proof.
  apply (X22_report_totals v8_source_text shelf log_shelf).
  apply (bool_decide_unpack _). vm_compute. exact I.
Defined.

Lemma descending_trans : Relations_1.Transitive descending.
Proof.
  intros [? x] [? y] [? z]. unfold descending, count_le. cbn [snd].
  destruct x, y, z; try contradiction. lia.
Qed.

Lemma sorted_top (rows : list (string * JSCount)) (n : nat) a b :
  Sorted descending rows ->
  a ∈ take n rows -> b ∈ drop n rows -> descending a b.
Proof.
  intros Hsorted Ha Hb.
  pose proof (Sorted.Sorted_StronglySorted descending_trans Hsorted) as Hs.
  rewrite <- (take_drop n rows) in Hs.
  exact (StronglySorted_app_1_elem_of _ _ _ _ _ Hs Ha Hb).
Qed.

(** X23.  The tables of top authors and top publishers show at most 5 rows;
    when no book of the view has an inherited name for its author or
    publisher (or category), they are really the top ones: the counts are
    numbers, and no row that is left out has a higher count than a row that
    is shown. *)
Theorem X23_top_rows (source_text : string -> string)
    (books : list (Doc Book)) (transactions : list (Doc Txn)) :
  ordinary_keys books ->
  let r := bookReports source_text books transactions in
  (length (topRows (c_author r)) <= 5)%nat /\
  (length (topRows (c_publisher r)) <= 5)%nat /\
  Forall (fun a => Forall (fun b => count_le b.2 a.2) (drop 5 (c_author r)))
         (topRows (c_author r)) /\
  Forall (fun a => Forall (fun b => count_le b.2 a.2)
                          (drop 5 (c_publisher r)))
         (topRows (c_publisher r)).
Proof.
  intros Hkeys r. unfold topRows.
  split; [rewrite length_take; lia|].
  split; [rewrite length_take; lia|].
  unfold r.
  rewrite (bookReports_numeric source_text books transactions Hkeys).
  cbn [c_author c_publisher].
  split; apply Forall_forall; intros a Ha; apply Forall_forall; intros b Hb;
    refine (sorted_top _ 5 a b _ Ha Hb);
    apply numeric_descending, sorted_counts_sorted.
Qed.

Lemma X23_top_rows_witness :
  let r := bookReports v8_source_text shelf log_shelf in
  (length (topRows (c_author r)) <= 5)%nat /\
  (length (topRows (c_publisher r)) <= 5)%nat /\
  Forall (fun a => Forall (fun b => count_le b.2 a.2) (drop 5 (c_author r)))
         (topRows (c_author r)) /\
  Forall (fun a => Forall (fun b => count_le b.2 a.2)
                          (drop 5 (c_publisher r)))
         (topRows (c_publisher r)).
Proof.
  apply (X23_top_rows v8_source_text shelf log_shelf).
  apply (bool_decide_unpack _). vm_compute. exact I.
Defined.

(** The shelf of six authors: the table of top authors shows five of them
    and leaves out one of those borrowed once. *)
Example top_authors_of_the_shelf :
  topRows (c_author (bookReports v8_source_text shelf log_shelf))
  = [("f", Num 3); ("b", Num 2); ("a", Num 1); ("c", Num 1); ("d", Num 1)].
Proof. vm_compute. reflexivity. Qed.

(** ** The key of a month *)

Lemma string_app_nil (t : string) : "" +:+ t = t.
Proof. reflexivity. Qed.

Lemma string_app_cons c (s t : string) : String c s +:+ t = String c (s +:+ t).
Proof. reflexivity. Qed.

Lemma string_length_app (s t : string) :
  String.length (s +:+ t) = (String.length s + String.length t)%nat.
Proof.
  induction s as [|c s IH]; [reflexivity|].
  rewrite string_app_cons. cbn [String.length]. rewrite IH. reflexivity.
Qed.

(** Two strings that end in suffixes of the same length are equal only when
    the suffixes and what precedes them are. *)
Lemma string_app_inj_suffix (s1 s2 t1 t2 : string) :
  String.length t1 = String.length t2 ->
  s1 +:+ t1 = s2 +:+ t2 -> s1 = s2 /\ t1 = t2.
Proof.
  intros Hlen. revert s2.
  induction s1 as [|c1 s1 IH]; intros [|c2 s2] Heq;
    rewrite ?string_app_nil, ?string_app_cons in Heq.
  - split; [reflexivity|exact Heq].
  - exfalso. rewrite Heq in Hlen. cbn [String.length] in Hlen.
    rewrite string_length_app in Hlen. lia.
  - exfalso. rewrite <- Heq in Hlen. cbn [String.length] in Hlen.
    rewrite string_length_app in Hlen. lia.
  - injection Heq as -> Heq. destruct (IH s2 Heq) as [-> ->].
    split; reflexivity.
Qed.

Lemma month_cases (m : Z) :
  1 <= m <= 12 ->
  m = 1 \/ m = 2 \/ m = 3 \/ m = 4 \/ m = 5 \/ m = 6 \/ m = 7 \/ m = 8 \/
  m = 9 \/ m = 10 \/ m = 11 \/ m = 12.
Proof. lia. Qed.

Lemma month_digits_length (m : Z) :
  1 <= m <= 12 -> String.length (padStart2 (pretty m)) = 2%nat.
Proof.
  intros H. apply month_cases in H.
  repeat (destruct H as [->|H]; [reflexivity|]). subst m. reflexivity.
Qed.

Lemma month_digits_inj (a b : Z) :
  1 <= a <= 12 -> 1 <= b <= 12 ->
  padStart2 (pretty a) = padStart2 (pretty b) -> a = b.
Proof.
  intros Ha Hb. apply month_cases in Ha. apply month_cases in Hb.
  repeat (destruct Ha as [->|Ha]); try subst a;
    repeat (destruct Hb as [->|Hb]); try subst b;
    intros H; first [reflexivity|vm_compute in H; discriminate H].
Qed.

(** X24.  The rows of the monthly report are the months of the calendar: two
    borrow dates fall under the same key exactly when they lie in the same
    month of the same year, in local time. *)
Theorem X24_month_key (tza d1 d2 : Z) :
  getMonthYear tza d1 = getMonthYear tza d2
  <-> getFullYear tza d1 = getFullYear tza d2 /\
      getMonth tza d1 = getMonth tza d2.
Proof.
  unfold getMonthYear. split.
  - intros Heq.
    pose proof (MonthFromTime_range (LocalTime tza d1)) as H1.
    pose proof (MonthFromTime_range (LocalTime tza d2)) as H2.
    fold (getMonth tza d1) in H1. fold (getMonth tza d2) in H2.
    apply string_app_inj_suffix in Heq as [Hy Hm].
    + apply (inj pretty) in Hy. split; [exact Hy|].
      injection Hm as Hm. apply month_digits_inj in Hm; lia.
    + rewrite !string_length_app, !month_digits_length by lia. reflexivity.
  - intros [-> ->]. reflexivity.
Qed.

(** ** The keys of report VI are ordinary keys *)

Lemma has_hyphen_app (s t : string) :
  has_hyphen (s +:+ t) = has_hyphen s || has_hyphen t.
Proof.
  induction s as [|c s IH].
  - rewrite string_app_nil. reflexivity.
  - rewrite string_app_cons. cbn [has_hyphen]. rewrite IH.
    apply orb_assoc.
Qed.

Lemma digits_no_hyphen (s : string) (acc n : N) :
  digits_value acc s = Some n -> has_hyphen s = false.
Proof.
  revert acc. induction s as [|c s IH]; intros acc H; [reflexivity|].
  cbn [digits_value has_hyphen] in *. unfold digit_of in H. cbv zeta in H.
  destruct ((48 <=? Ascii.N_of_ascii c)%N && (Ascii.N_of_ascii c <=? 57)%N)
    eqn:Hd; [|discriminate H].
  apply andb_true_iff in Hd as [Hlo _]. apply N.leb_le in Hlo.
  simpl in H. rewrite (IH _ H), orb_false_r.
  apply N.eqb_neq. lia.
Qed.

Lemma array_index_no_hyphen (k : string) (n : N) :
  array_index k = Some n -> has_hyphen k = false.
Proof.
  unfold array_index. destruct k as [|c s]; [discriminate|].
  destruct (_ && _); [discriminate|].
  destruct (digits_value 0 (String c s)) as [m|] eqn:Hm; [|discriminate].
  intros _. exact (digits_no_hyphen _ _ _ Hm).
Qed.

Lemma inherited_no_hyphen (k : string) :
  inherited k = true -> has_hyphen k = false.
Proof.
  unfold inherited, Object_prototype. intros H.
  apply bool_decide_eq_true in H.
  repeat (apply elem_of_cons in H as [->|H]; [reflexivity|]).
  apply elem_of_nil in H. contradiction.
Qed.

Lemma month_key_hyphen (tza d : Z) : has_hyphen (getMonthYear tza d) = true.
Proof.
  unfold getMonthYear. rewrite !has_hyphen_app.
  change (has_hyphen "-") with true. rewrite orb_true_l.
  apply orb_true_r.
Qed.

(** X28.  The object of report VI is used under month keys only, and a
    month key is neither a name that plain objects inherit nor an array
    index: the read of a month not yet counted finds nothing, and
    [Object.entries] lists the months in the order of their first
    assignment. *)
Theorem X28_month_keys_ordinary (tza d : Z) :
  inherited (getMonthYear tza d) = false /\
  array_index (getMonthYear tza d) = None /\
  (forall V (o : JSObject V),
      Forall (fun e => exists d', e.1 = getMonthYear tza d') o ->
      Object_entries o = o).
Proof.
  assert (Hidx : forall d', array_index (getMonthYear tza d') = None).
  { intros d'. destruct (array_index (getMonthYear tza d')) as [n|] eqn:Hn;
      [|reflexivity].
    apply array_index_no_hyphen in Hn. rewrite month_key_hyphen in Hn.
    discriminate Hn. }
  split; [|split].
  - destruct (inherited (getMonthYear tza d)) eqn:Hi; [|reflexivity].
    apply inherited_no_hyphen in Hi. rewrite month_key_hyphen in Hi.
    discriminate Hi.
  - apply Hidx.
  - intros V o Ho. unfold Object_entries.
    assert (Hno : forall e, e ∈ o -> is_index e = false).
    { intros e He. destruct (proj1 (Forall_forall _ _) Ho e He) as [d' Hk].
      unfold is_index. rewrite Hk, Hidx.
      apply bool_decide_eq_false_2. intros [? ?]. discriminate. }
    clear Ho. induction o as [|e o IH]; [reflexivity|].
    cbn [List.filter]. rewrite (Hno e) by left. cbn [negb].
    rewrite <- IH at 3 by (intros e' He'; apply Hno; right; exact He').
    assert (Hnil : List.filter is_index o = []).
    { clear IH. induction o as [|e' o IH']; [reflexivity|].
      cbn [List.filter]. rewrite (Hno e') by (right; left).
      apply IH'. intros e'' He''. apply Hno.
      apply elem_of_cons in He'' as [->|He'']; [left|right; right; exact He'']. }
    rewrite Hnil. reflexivity.
Qed.

(** ** When report VI fails *)

(** X14.  The monthly report throws exactly when the log holds a transaction
    of a user of the view whose borrow date is null; one such transaction is
    enough, wherever it stands in the log. *)
Theorem X14_monthly_report_fails tza (users : list (Doc User))
    (transactions : list (Doc Txn)) :
  monthlyUsageReport tza users transactions = None
  <-> Exists (fun t => has_user users t = true /\
                       borrowDate (doc_data t) = None) transactions.
Proof.
  unfold monthlyUsageReport.
  assert (Hnone : forall l, foldl (monthlyUsage_count tza users) None l = None).
  { induction l as [|t l IH]; [reflexivity|exact IH]. }
  assert (Hfold : forall l (o : JSObject Usage),
             foldl (monthlyUsage_count tza users) (Some o) l = None
             <-> Exists (fun t => has_user users t = true /\
                                  borrowDate (doc_data t) = None) l).
  { induction l as [|t l IH]; intros o.
    - split; [discriminate|]. intros H. inversion H.
    - cbn [foldl]. rewrite Exists_cons. unfold monthlyUsage_count at 2.
      cbn [mbind option_bind]. unfold has_user at 1.
      destruct (find_by_id (userId (doc_data t)) users) as [user|].
      + destruct (borrowDate (doc_data t)) as [date|]; cbn [mbind option_bind].
        * rewrite IH. split; [intros H; right; exact H|].
          intros [[_ H]|H]; [discriminate|exact H].
        * rewrite Hnone. split; [|reflexivity]. intros _. left.
          split; [|reflexivity]. apply bool_decide_eq_true_2.
          eexists. reflexivity.
      + rewrite IH. split; [intros H; right; exact H|].
        intros [[H _]|H]; [|exact H].
        apply bool_decide_eq_true_1 in H. destruct H as [? H]. discriminate. }
  match goal with
  | |- (foldl ?f (Some ?o) ?l ≫= _) = None <-> _ =>
      pose proof (Hfold l o) as Hiff;
      destruct (foldl f (Some o) l) as [usage|] eqn:Hf
  end; cbn [mbind option_bind].
  - split; [discriminate|]. intros H. apply Hiff in H.
    pose proof (eq_trans (eq_sym Hf) H) as Hc. discriminate Hc.
  - split; [|reflexivity]. intros _. apply Hiff. exact Hf.
Qed.

(** ** Invariants along a run *)

(** X25.  A run of borrows and returns issued from up-to-date views, the ids
    of the new transactions being fresh, keeps I1 and I2 together: the
    copies on loan of every book stay the number of its open transactions. *)
Theorem X25_I1_I2_preserved tza ops db :
  fresh_ids tza ops db -> I1 db -> I2 db ->
  I1 (run tza ops db) /\ I2 (run tza ops db).
Proof.
  intros Hfresh H1 H2. split.
  - apply I1_of_covered, covered_run, covered_of_I1_I2; assumption.
  - apply I2_run; assumption.
Qed.

Lemma X25_I1_I2_preserved_witness :
  I1 (run 0 [OpBorrow "U1" "B" env_U1; OpReturn "T1" env_day9] db_B) /\
  I2 (run 0 [OpBorrow "U1" "B" env_U1; OpReturn "T1" env_day9] db_B).
Proof.
  apply (X25_I1_I2_preserved 0 _ db_B).
  - cbn [fresh_ids]. split; [vm_compute; reflexivity|]. split; exact I.
  - apply (bool_decide_unpack _). vm_compute. exact I.
  - apply (bool_decide_unpack _). vm_compute. exact I.
Defined.

(** X26.  Whatever the views show, a borrow and a return never leave an
    open transaction with a positive fine: a borrow writes the fine 0, and a
    return writes its fine together with the return date. *)
Theorem X26_fines_only_on_returns tza books u b envB txn envR db :
  fined_closed_store db ->
  fined_closed_store (handleBorrow tza books u b envB db).2 /\
  fined_closed_store (handleReturn txn envR db).2 /\
  fined_closed (snapshot (stransactions (handleReturn txn envR db).2)).
Proof.
  intros H. split; [apply fined_closed_borrow; exact H|].
  split; [apply fined_closed_return; exact H|].
  apply fined_closed_snapshot, fined_closed_return. exact H.
Qed.

Lemma X26_fines_only_on_returns_witness :
  fined_closed_store
    (handleBorrow 0 (snapshot (sbooks db_B)) "U2" "B" env_U2 db_lent).2 /\
  fined_closed_store (handleReturn txn_T1 env_day10 db_lent).2 /\
  fined_closed (snapshot (stransactions
                            (handleReturn txn_T1 env_day10 db_lent).2)).
Proof.
  apply (X26_fines_only_on_returns 0 (snapshot (sbooks db_B)) "U2" "B" env_U2
           txn_T1 env_day10 db_lent).
  unfold fined_closed_store, db_lent. cbn [stransactions].
  apply map_Forall_singleton. cbn. intros H. discriminate H.
Defined.
